(** * zfit [core/space_new.py]: coordinates, limits, spaces and their combinators

    A shallow embedding of the coordinate/domain algebra of
    [zfit/core/space_new.py].  Python objects become records and inductive
    types, exceptions become the [Raise] branch of a result monad, ordered
    dictionaries become association lists (their iteration order is
    observable in [_rect_limits_z] and [_inside]), and tuples become lists
    indexed with stdpp's lookup.

    Numbers are rationals: every bound and point that occurs below is a
    finite dyadic value, on which the comparison of IEEE doubles and the
    comparison of rationals agree. *)

From Stdlib Require Import QArith Qabs.
From stdpp Require Import base option list strings.

Set Default Proof Using "Type".
#[local] Set Warnings "-register-all".

(** ** Python values that fail: exceptions as a result monad *)

Inductive exn :=
  | TypeError | ValueError | KeyError | AttributeError | IndexError
  | OverdefinedError
  | CoordinatesUnderdefinedError | CoordinatesIncompatibleError
  | ObsIncompatibleError | AxesIncompatibleError
  | ShapeIncompatibleError | InvalidArgumentError
  | LimitsIncompatibleError | SpaceIncompatibleError
  | IllegalInGraphModeError | CannotConvertToNumpyError
  | WorkInProgressError | MultipleLimitsNotImplementedError
  | AssertionError | UnboundLocalError.

Inductive result (A : Type) :=
  | Ok (a : A)
  | Raise (e : exn).
Arguments Ok {A} a.
Arguments Raise {A} e.

#[global] Instance result_ret : MRet result := @Ok.
#[global] Instance result_bind : MBind result := fun A B f m =>
  match m with
  | Ok a => f a
  | Raise e => Raise e
  end.
#[global] Instance result_fmap : FMap result := fun A B f m =>
  match m with
  | Ok a => Ok (f a)
  | Raise e => Raise e
  end.

(** [mapM] over a list, left to right, stopping at the first exception: a list
    comprehension whose body may raise. *)
Fixpoint traverse {A B} (f : A -> result B) (l : list A) : result (list B) :=
  match l with
  | [] => Ok []
  | a :: l' => b ← f a; bs ← traverse f l'; Ok (b :: bs)
  end.

(** ** Bound sentinels (lines 32-100)

    [Any] and its two subclasses [AnyLower] and [AnyUpper] are singletons; the
    comparison [a <= b] is not a method call but Python's rich comparison,
    which consults the classes of both operands. *)

Module Sentinel.

Inductive cmpop := op_lt | op_le | op_ge | op_gt.

Inductive pyclass := cls_float | cls_str | cls_NoneType | cls_Any | cls_AnyLower | cls_AnyUpper.

#[global] Instance pyclass_eq_dec : EqDecision pyclass.
Proof. solve_decision. Defined.

Inductive value :=
  | VFloat (q : Q)
  | VStr (s : string)
  | VNone
  | ANY
  | ANY_LOWER
  | ANY_UPPER.

Definition type_of (v : value) : pyclass :=
  match v with
  | VFloat _ => cls_float
  | VStr _ => cls_str
  | VNone => cls_NoneType
  | ANY => cls_Any
  | ANY_LOWER => cls_AnyLower
  | ANY_UPPER => cls_AnyUpper
  end.

(** A comparison method returns a boolean or [NotImplemented]. *)
Inductive cmp_result := RBool (b : bool) | NotImplemented.

Definition method := value -> value -> cmp_result.

(** The comparison methods each class body defines itself
    ([__eq__] and [__hash__] are commented out in all three). *)
Definition Any_dict (op : cmpop) : option method :=
  match op with
  | op_lt => Some (fun self other => RBool true)
  | op_le => Some (fun self other => RBool true)
  | op_ge => Some (fun self other => RBool true)
  | op_gt => Some (fun self other => RBool true)
  end.

Definition AnyLower_dict (op : cmpop) : option method :=
  match op with
  | op_ge => Some (fun self other => RBool false)
  | op_gt => Some (fun self other => RBool false)
  | _ => None
  end.

Definition AnyUpper_dict (op : cmpop) : option method :=
  match op with
  | op_le => Some (fun self other => RBool false)
  | op_lt => Some (fun self other => RBool false)
  | _ => None
  end.

Definition Q_cmp (op : cmpop) (a b : Q) : bool :=
  match op with
  | op_lt => negb (Qle_bool b a)
  | op_le => Qle_bool a b
  | op_ge => Qle_bool b a
  | op_gt => negb (Qle_bool a b)
  end.

Definition string_cmp (op : cmpop) (a b : string) : bool :=
  match op with
  | op_lt => String.ltb a b
  | op_le => String.leb a b
  | op_ge => String.leb b a
  | op_gt => String.ltb b a
  end.

(** The built-in classes compare with their own kind only. *)
Definition float_dict (op : cmpop) : option method :=
  Some (fun self other =>
    match self, other with
    | VFloat a, VFloat b => RBool (Q_cmp op a b)
    | _, _ => NotImplemented
    end).

Definition str_dict (op : cmpop) : option method :=
  Some (fun self other =>
    match self, other with
    | VStr a, VStr b => RBool (string_cmp op a b)
    | _, _ => NotImplemented
    end).

Definition class_dict (c : pyclass) : cmpop -> option method :=
  match c with
  | cls_float => float_dict
  | cls_str => str_dict
  | cls_NoneType => fun _ => None
  | cls_Any => Any_dict
  | cls_AnyLower => AnyLower_dict
  | cls_AnyUpper => AnyUpper_dict
  end.

(** Method resolution order, without the root [object], whose ordering
    methods answer [NotImplemented]. *)
Definition mro (c : pyclass) : list pyclass :=
  match c with
  | cls_AnyLower => [cls_AnyLower; cls_Any]
  | cls_AnyUpper => [cls_AnyUpper; cls_Any]
  | c => [c]
  end.

Definition issubclass (c d : pyclass) : bool := bool_decide (d ∈ mro c).

Fixpoint lookup_method (cs : list pyclass) (op : cmpop) : option method :=
  match cs with
  | [] => None
  | c :: cs' =>
      match class_dict c op with
      | Some m => Some m
      | None => lookup_method cs' op
      end
  end.

(** The type slot: call the method found along the MRO. *)
Definition slot_richcompare (self other : value) (op : cmpop) : cmp_result :=
  match lookup_method (mro (type_of self)) op with
  | Some m => m self other
  | None => NotImplemented
  end.

Definition swapped (op : cmpop) : cmpop :=
  match op with
  | op_lt => op_gt
  | op_le => op_ge
  | op_ge => op_le
  | op_gt => op_lt
  end.

(** Python's rich comparison [v op w]: when the class of [w] is a proper
    subclass of the class of [v], the reflected method of [w] is asked first;
    then the method of [v]; then (if not asked yet) the reflected method of
    [w]; an ordering nobody answers is a [TypeError]. *)
Definition richcompare (op : cmpop) (v w : value) : result bool :=
  let reflected_first :=
    negb (bool_decide (type_of v = type_of w)) && issubclass (type_of w) (type_of v) in
  let first := if reflected_first then slot_richcompare w v (swapped op) else NotImplemented in
  match first with
  | RBool b => Ok b
  | NotImplemented =>
      match slot_richcompare v w op with
      | RBool b => Ok b
      | NotImplemented =>
          let last := if reflected_first then NotImplemented else slot_richcompare w v (swapped op) in
          match last with
          | RBool b => Ok b
          | NotImplemented => Raise TypeError
          end
      end
  end.

(** The pairs on which a subclass of [Any] answers the reflected question
    [False] before [Any] itself is asked. *)
Definition subclass_answers_first (op : cmpop) (w : value) : bool :=
  match w, op with
  | ANY_LOWER, (op_lt | op_le) => true
  | ANY_UPPER, (op_ge | op_gt) => true
  | _, _ => false
  end.

End Sentinel.

(** ** The numeric backend ([z], [z.unstable], [tf], [np])

    Modelled from the spec: the backend modules are not part of this file's
    source; section 6 of the specification describes them as a deferred
    numeric array abstraction with elementwise comparison, broadcasting,
    axis-wise reduction, last-axis concatenation and gather, and a
    "materialize to concrete, fail if unresolved" primitive.  An operation on
    concrete operands computes; an operation with an unresolved operand
    yields an unresolved node. *)

Module Backend.

Inductive tensor :=
  | T0 (x : Q)                              (* shape () *)
  | T1 (xs : list Q)                        (* shape (n,) *)
  | T2 (rows : list (list Q))               (* shape (m, n) *)
  | TSym (name : string) (n : nat)          (* unresolved, static shape (1, n) *)
  | TGather (t : tensor) (indices : list nat)
  | TConcat (ts : list tensor).

Inductive btensor :=
  | B0 (b : bool)
  | B1 (bs : list bool)
  | B2 (rows : list (list bool))
  | BLessEqual (a b : tensor)
  | BGreaterEqual (a b : tensor)
  | BAllclose (a b : list tensor)
  | BReduceAll (t : btensor)
  | BAnd (t1 t2 : btensor)
  | BAllOf (ts : list btensor).

Definition is_concrete (t : tensor) : bool :=
  match t with
  | T0 _ | T1 _ | T2 _ => true
  | _ => false
  end.

Definition is_resolved (b : btensor) : bool :=
  match b with
  | B0 _ | B1 _ | B2 _ => true
  | _ => false
  end.

(** [x.shape.ndims] *)
Definition ndims (t : tensor) : nat :=
  match t with
  | T0 _ => 0
  | T1 _ => 1
  | _ => 2
  end.

Definition row_width (rows : list (list Q)) : nat :=
  match rows with
  | [] => 0
  | r :: _ => length r
  end.

(** [x.shape[-1]]; a scalar has no last dimension. *)
Fixpoint last_dim (t : tensor) : result nat :=
  match t with
  | T0 _ => Raise IndexError
  | T1 xs => Ok (length xs)
  | T2 rows => Ok (row_width rows)
  | TSym _ n => Ok n
  | TGather _ indices => Ok (length indices)
  | TConcat ts =>
      (fix sum (l : list tensor) : result nat :=
         match l with
         | [] => Ok 0
         | t :: l' => a ← last_dim t; b ← sum l'; Ok (a + b)
         end) ts
  end.

(** [z.unstable._try_convert_numpy]: the materialising primitive. *)
Definition _try_convert_numpy (t : tensor) : result tensor :=
  if is_concrete t then Ok t else Raise CannotConvertToNumpyError.

(** [z.convert_to_tensor] keeps the values. *)
Definition convert_to_tensor (t : tensor) : tensor := t.

(** NumPy broadcasting of one dimension: equal lengths, or one of them 1. *)
Definition broadcast_with {A B C} (f : A -> B -> C) (xs : list A) (ys : list B)
  : result (list C) :=
  if (length xs =? length ys)%nat then Ok (zip_with f xs ys)
  else match xs, ys with
       | [x], _ => Ok (map (f x) ys)
       | _, [y] => Ok (map (fun x => f x y) xs)
       | _, _ => Raise ValueError
       end.

Definition join_rows {C} (rs : list (result (list C))) : result (list (list C)) :=
  traverse (fun r => r) rs.

Definition elementwise2 {A B C} (f : A -> B -> C) (x : list (list A)) (y : list (list B))
  : result (list (list C)) :=
  rs ← broadcast_with (broadcast_with f) x y; join_rows rs.

Definition as_rows (t : tensor) : option (list (list Q)) :=
  match t with
  | T0 x => Some [[x]]
  | T1 xs => Some [xs]
  | T2 rows => Some rows
  | _ => None
  end.

(** An elementwise comparison of two concrete tensors, with broadcasting; the
    result has the larger of the two ranks. *)
Definition compare_rows (f : Q -> Q -> bool) (rank : nat) (x y : list (list Q))
  : result btensor :=
  rs ← elementwise2 f x y;
  Ok match rank, rs with
     | 0%nat, [[v]] => B0 v
     | 1%nat, [r] => B1 r
     | _, _ => B2 rs
     end.

(** [less_equal] and [greater_equal] *)
Definition less_equal (a b : tensor) : result btensor :=
  match as_rows a, as_rows b with
  | Some x, Some y => compare_rows Qle_bool (ndims a `max` ndims b) x y
  | _, _ => Ok (BLessEqual a b)
  end.

Definition greater_equal (a b : tensor) : result btensor :=
  match as_rows a, as_rows b with
  | Some x, Some y => compare_rows (fun p q => Qle_bool q p) (ndims a `max` ndims b) x y
  | _, _ => Ok (BGreaterEqual a b)
  end.

Definition all_true (bs : list bool) : bool := forallb (fun b => b) bs.

(** [reduce_all(..., axis=-1)] *)
Definition reduce_all_last (t : btensor) : result btensor :=
  match t with
  | B0 _ => Raise ValueError
  | B1 bs => Ok (B0 (all_true bs))
  | B2 rows => Ok (B1 (map all_true rows))
  | _ => Ok (BReduceAll t)
  end.

(** [reduce_all(...)] over every axis. *)
Definition reduce_all (t : btensor) : btensor :=
  match t with
  | B0 b => B0 b
  | B1 bs => B0 (all_true bs)
  | B2 rows => B0 (all_true (map all_true rows))
  | _ => BReduceAll t
  end.

Definition logical_and (s t : btensor) : result btensor :=
  match s, t with
  | B0 a, B0 b => Ok (B0 (a && b))
  | B0 a, B1 bs => Ok (B1 (map (andb a) bs))
  | B1 bs, B0 b => Ok (B1 (map (fun a => a && b) bs))
  | B1 xs, B1 ys => B1 <$> broadcast_with andb xs ys
  | B0 a, B2 rows => Ok (B2 (map (map (andb a)) rows))
  | B2 rows, B0 b => Ok (B2 (map (map (fun a => a && b)) rows))
  | B1 xs, B2 rows => B2 <$> elementwise2 andb [xs] rows
  | B2 rows, B1 ys => B2 <$> elementwise2 andb rows [ys]
  | B2 x, B2 y => B2 <$> elementwise2 andb x y
  | _, _ => Ok (BAnd s t)
  end.

(** [np.allclose] on two sequences of arrays: every pair of entries is within
    [atol + rtol * |y|], with NumPy's default tolerances. *)
Definition rtol : Q := 1 # 100000.
Definition atol : Q := 1 # 100000000.

Definition isclose (x y : Q) : bool :=
  Qle_bool (Qabs (x - y)) (atol + rtol * Qabs y).

Definition allclose_rows (x y : list (list Q)) : result bool :=
  rs ← elementwise2 isclose x y; Ok (all_true (map all_true rs)).

Fixpoint allclose_list (xs ys : list (list (list Q))) : result bool :=
  match xs, ys with
  | [], [] => Ok true
  | x :: xs', y :: ys' => b ← allclose_rows x y; bs ← allclose_list xs' ys'; Ok (b && bs)
  | _, _ => Raise ValueError
  end.

Definition all_rows (ts : list tensor) : option (list (list (list Q))) :=
  mapM as_rows ts.

Definition allclose (a b : list tensor) : result btensor :=
  match all_rows a, all_rows b with
  | Some x, Some y => B0 <$> allclose_list x y
  | _, _ => Ok (BAllclose a b)
  end.

(** [gather(x, indices, axis=-1)]: pick columns. *)
Definition gather_row {A} (indices : list nat) (r : list A) : result (list A) :=
  traverse (fun i => match r !! i with Some a => Ok a | None => Raise IndexError end) indices.

Definition gather (t : tensor) (indices : list nat) : result tensor :=
  match t with
  | T0 _ => Raise IndexError
  | T1 xs => T1 <$> gather_row indices xs
  | T2 rows => T2 <$> traverse (gather_row indices) rows
  | _ => Ok (TGather t indices)
  end.

(** [concat(ts, axis=-1)] of rank-2 tensors with equally many rows. *)
Fixpoint concat_rows (ts : list (list (list Q))) : result (list (list Q)) :=
  match ts with
  | [] => Raise ValueError
  | [t] => Ok t
  | t :: ts' =>
      rest ← concat_rows ts';
      if (length t =? length rest)%nat then Ok (zip_with app t rest) else Raise ValueError
  end.

Definition as_rows2 (t : tensor) : option (list (list Q)) :=
  match t with
  | T2 rows => Some rows
  | _ => None
  end.

Definition concat (ts : list tensor) : result tensor :=
  if forallb is_concrete ts then
    match mapM as_rows2 ts with
    | Some rs => T2 <$> concat_rows rs
    | None => Raise ValueError
    end
  else Ok (TConcat ts).

(** [tf.reduce_all(xs, axis=0)] on a list of rank-1 results: all of them, per event. *)
Fixpoint reduce_all_axis0 (xs : list (list bool)) : result (list bool) :=
  match xs with
  | [] => Raise ValueError
  | [x] => Ok x
  | x :: xs' =>
      rest ← reduce_all_axis0 xs';
      if (length x =? length rest)%nat then Ok (zip_with andb x rest) else Raise ValueError
  end.

Definition as_b1 (t : btensor) : option (list bool) :=
  match t with
  | B1 bs => Some bs
  | _ => None
  end.

Definition reduce_all_stack (ts : list btensor) : result btensor :=
  if forallb is_resolved ts then
    match mapM as_b1 ts with
    | Some xs => B1 <$> reduce_all_axis0 xs
    | None => Raise ValueError
    end
  else Ok (BAllOf ts).

(** [tf.broadcast_to(True, x.shape)] for a rank-2 [x]. *)
Definition broadcast_true (rows : list (list Q)) : btensor :=
  B2 (map (map (fun _ => true)) rows).

End Backend.

(** ** Helpers on tuples used as sets and as sequences *)

Section tuples.
Context {A : Type} `{EqDecision A}.

Definition is_in (a : A) (l : list A) : bool := bool_decide (a ∈ l).

(** [frozenset(a).issubset(b)] *)
Definition issubset (a b : list A) : bool := forallb (fun x => is_in x b) a.

(** [frozenset(a).issuperset(b)] *)
Definition issuperset (a b : list A) : bool := issubset b a.

(** [frozenset(a) == frozenset(b)] *)
Definition frozenset_eq (a b : list A) : bool := issubset a b && issubset b a.

(** [old.index(o)]: the first position of [o], a [ValueError] when absent. *)
Definition index (old : list A) (o : A) : result nat :=
  match list_find (fun y => y = o) old with
  | Some (i, _) => Ok i
  | None => Raise ValueError
  end.

(** [_reorder_indices] (line 2070) *)
Definition _reorder_indices (old new : list A) : result (list nat) :=
  traverse (index old) new.

(** [tuple(t[i] for i in indices)] *)
Definition pick (t : list A) (indices : list nat) : result (list A) :=
  traverse (fun i => match t !! i with Some a => Ok a | None => Raise IndexError end) indices.
End tuples.

(** ** Coordinates (lines 159-387) *)

Module Coords.

Record Coordinates := mkCoordinates {
  _obs : option (list string);
  _axes : option (list Z);
  _n_obs : nat
}.

(** A list element that is a space object ([isinstance(ob, ZfitSpace)]), as
    the two conversions below see it: through [len(ob)] and through
    [ob.obs].  The space classes of this file define no [__len__], so the
    length is whatever the interface answers, an exception included.  Both
    conversions extend by [ob.obs] (the one for positions too); the elements
    found there are of the type of the list they are put into. *)
Record space_elem (A : Type) := mkSpaceElem {
  elem_len : result nat;
  elem_obs : option (list A)
}.
Arguments mkSpaceElem {A} elem_len elem_obs.
Arguments elem_len {A} s.
Arguments elem_obs {A} s.

Inductive elem (A : Type) :=
  | Plain (a : A)
  | SpaceElem (sp : space_elem A).
Arguments Plain {A} a.
Arguments SpaceElem {A} sp.

(** What the constructor is given as [obs]: nothing, one name, a sequence of
    names, another coordinate object, or a sequence in which space objects
    occur. *)
Inductive obs_arg :=
  | ObsNone
  | ObsStr (s : string)
  | ObsSeq (l : list string)
  | ObsCoords (c : Coordinates)
  | ObsElems (l : list (elem string)).

(** Modelled from the spec: [util.container.convert_to_container] is not part
    of this file's source; it turns a bare value into a one-element tuple and
    a sequence into a tuple, keeping [None].  A coordinate object does not
    get here: [_check_convert_obs_axes] answers for it before it converts. *)
Definition convert_to_container (o : obs_arg) : option (list (elem string)) :=
  match o with
  | ObsNone => None
  | ObsStr s => Some [Plain s]
  | ObsSeq l => Some (map Plain l)
  | ObsCoords c => map Plain <$> _obs c
  | ObsElems l => Some l
  end.

(** The loop of [convert_to_obs_str] (lines 2182-2189) and of
    [convert_to_axes] (lines 2164-2171): a plain element is appended, a
    space element of length above one is refused, any other space element
    contributes its [obs]; [extend(None)] is a [TypeError]. *)
Fixpoint extend_all {A} (new_obs : list A) (obs : list (elem A)) : result (list A) :=
  match obs with
  | [] => Ok new_obs
  | Plain ob :: obs' => extend_all (new_obs ++ [ob]) obs'
  | SpaceElem ob :: obs' =>
      n ← elem_len ob;
      if (1 <? n)%nat then Raise WorkInProgressError
      else match elem_obs ob with
           | Some o => extend_all (new_obs ++ o) obs'
           | None => Raise TypeError
           end
  end.

(** [convert_to_obs_str] (line 2175) *)
Definition convert_to_obs_str (o : obs_arg) : result (option (list string)) :=
  match convert_to_container o with
  | None => Ok None
  | Some obs => Some <$> extend_all [] obs
  end.

(** [convert_to_axes] (line 2157) *)
Definition convert_to_axes (a : option (list (elem Z))) : result (option (list Z)) :=
  match a with
  | None => Ok None
  | Some axes => Some <$> extend_all [] axes
  end.

(** Positions given as plain integers. *)
Definition plain_axes (a : option (list Z)) : option (list (elem Z)) := map Plain <$> a.

(** [Coordinates._check_convert_obs_axes] (line 167) *)
Definition _check_convert_obs_axes (obs : obs_arg) (axes : option (list (elem Z)))
  : result (option (list string) * option (list Z) * nat) :=
  match obs with
  | ObsCoords coord =>
      match axes with
      | Some _ => Raise OverdefinedError
      | None => Ok (_obs coord, _axes coord, _n_obs coord)
      end
  | _ =>
      obs ← convert_to_obs_str obs;
      axes ← convert_to_axes axes;
      match obs with
      | None =>
          match axes with
          | None => Raise CoordinatesUnderdefinedError
          | Some ax => Ok (obs, axes, length ax)
          end
      | Some ob =>
          match axes with
          | Some ax =>
              if negb (length ob =? length ax)%nat then Raise CoordinatesIncompatibleError
              else Ok (obs, axes, length ob)
          | None => Ok (obs, axes, length ob)
          end
      end
  end.

(** [Coordinates.__init__] (line 160) *)
Definition init (obs : obs_arg) (axes : option (list (elem Z))) : result Coordinates :=
  '(obs, axes, n_obs) ← _check_convert_obs_axes obs axes;
  Ok (mkCoordinates obs axes n_obs).

(** The constructor called with plain positions, as every caller in this
    file does. *)
Definition new (obs : obs_arg) (axes : option (list Z)) : result Coordinates :=
  init obs (plain_axes axes).

Definition opt_seq (o : option (list string)) : obs_arg :=
  match o with
  | None => ObsNone
  | Some l => ObsSeq l
  end.

(** [_reorder_obs] and [_reorder_axes] *)
Definition _reorder_obs (self : Coordinates) (indices : list nat) : result (option (list string)) :=
  match _obs self with
  | Some obs => Some <$> pick obs indices
  | None => Ok None
  end.

Definition _reorder_axes (self : Coordinates) (indices : list nat) : result (option (list Z)) :=
  match _axes self with
  | Some axes => Some <$> pick axes indices
  | None => Ok None
  end.

(** [get_reorder_indices] (line 280) *)
Definition get_reorder_indices (self : Coordinates)
    (obs : option (list string)) (axes : option (list Z)) : result (list nat) :=
  match _obs self, obs with
  | Some self_obs, Some obs =>
      _reorder_indices self_obs (filter (fun o => o ∈ self_obs) obs)
  | _, _ =>
      match _axes self, axes with
      | Some self_axes, Some axes =>
          _reorder_indices self_axes (filter (fun a => a ∈ self_axes) axes)
      | _, _ => Raise ValueError
      end
  end.

(** [with_obs] (line 199).  [frozenset(self.obs)] is a [TypeError] when the
    instance has no obs. *)
Definition with_obs (self : Coordinates) (obs : option (list string))
    (allow_superset allow_subset : bool) : result Coordinates :=
  match obs with
  | None =>
      match _axes self with
      | None => Raise AxesIncompatibleError
      | Some _ => new ObsNone (_axes self)
      end
  | Some obs =>
      match _obs self with
      | None => Raise TypeError
      | Some self_obs =>
          if negb (frozenset_eq obs self_obs) && negb allow_superset && issuperset obs self_obs
          then Raise ObsIncompatibleError
          else if negb (frozenset_eq obs self_obs) && negb allow_subset && issubset obs self_obs
          then Raise ObsIncompatibleError
          else
            new_indices ← get_reorder_indices self (Some obs) None;
            new_obs ← _reorder_obs self new_indices;
            new_axes ← _reorder_axes self new_indices;
            new (opt_seq new_obs) new_axes
      end
  end.

(** [with_axes] (line 222) *)
Definition with_axes (self : Coordinates) (axes : option (list Z))
    (allow_superset allow_subset : bool) : result Coordinates :=
  match axes with
  | None =>
      match _obs self with
      | None => Raise ObsIncompatibleError
      | Some _ => new (opt_seq (_obs self)) None
      end
  | Some axes =>
      match _axes self with
      | None => Raise TypeError
      | Some self_axes =>
          if negb (frozenset_eq axes self_axes) && negb allow_superset && issuperset axes self_axes
          then Raise AxesIncompatibleError
          else if negb (frozenset_eq axes self_axes) && negb allow_subset && issubset axes self_axes
          then Raise AxesIncompatibleError
          else
            new_indices ← get_reorder_indices self None (Some axes);
            new_obs ← _reorder_obs self new_indices;
            new_axes ← _reorder_axes self new_indices;
            new (opt_seq new_obs) new_axes
      end
  end.

(** Truth value of an optional tuple: [None] and [()] are false. *)
Definition truthy {A} (o : option (list A)) : bool :=
  match o with
  | Some (_ :: _) => true
  | _ => false
  end.

(** [reorder_x] (line 308): which of the four keyword arguments are given
    decides the direction; the permutation is then applied along the last
    axis. *)
Definition reorder_x (self : Coordinates) (x : Backend.tensor)
    (x_obs : option (list string)) (x_axes : option (list Z))
    (func_obs : option (list string)) (func_axes : option (list Z))
  : result Backend.tensor :=
  let x_reorder := bool_decide (x_obs ≠ None) || bool_decide (x_axes ≠ None) in
  let func_reorder := bool_decide (func_obs ≠ None) || bool_decide (func_axes ≠ None) in
  if negb (xorb x_reorder func_reorder) then Raise ValueError
  else
    let obs_defined := bool_decide (x_obs ≠ None) || bool_decide (func_obs ≠ None) in
    let axes_defined := bool_decide (x_axes ≠ None) || bool_decide (func_axes ≠ None) in
    new_indices ←
      (if obs_defined && truthy (_obs self) then
         let '(coord_old, coord_new) :=
           if x_reorder then (x_obs, _obs self) else (_obs self, func_obs) in
         match coord_old, coord_new with
         | Some old, Some new => _reorder_indices old new
         | _, _ => Raise TypeError
         end
       else if axes_defined && truthy (_axes self) then
         let '(coord_old, coord_new) :=
           if x_reorder then (x_axes, _axes self) else (_axes self, func_axes) in
         match coord_old, coord_new with
         | Some old, Some new => _reorder_indices old new
         | _, _ => Raise TypeError
         end
       else Raise ValueError);
    Backend.gather x new_indices.

(** [__eq__] (line 370) between two coordinate objects. *)
Definition eq (self other : Coordinates) : bool :=
  let obs_equal :=
    match _obs self, _obs other with
    | Some a, Some b => frozenset_eq a b
    | _, _ => false
    end in
  let axes_equal :=
    match _axes self, _axes other with
    | Some a, Some b => frozenset_eq a b
    | _, _ => false
    end in
  obs_equal || axes_equal.

(** The invariant the constructor establishes: a coordinate system is
    present, [n_obs] is its length, and names and positions are aligned. *)
Definition valid (c : Coordinates) : Prop :=
  match _obs c, _axes c with
  | None, None => False
  | Some o, None => _n_obs c = length o
  | None, Some a => _n_obs c = length a
  | Some o, Some a => _n_obs c = length o /\ length o = length a
  end.

(** The invariant of the specification: no dimension identifier is
    repeated, neither among the names nor among the positions. *)
Definition no_duplicates (c : Coordinates) : Prop :=
  (forall o, _obs c = Some o -> NoDup o) /\ (forall a, _axes c = Some a -> NoDup a).

(** The identifiers a list element stands for. *)
Definition elem_ids {A} (e : elem A) : list A :=
  match e with
  | Plain a => [a]
  | SpaceElem sp => default [] (elem_obs sp)
  end.

Definition arg_no_duplicates (o : obs_arg) : Prop :=
  match o with
  | ObsNone | ObsStr _ => True
  | ObsSeq l => NoDup l
  | ObsCoords c => no_duplicates c
  | ObsElems l => NoDup (concat (map elem_ids l))
  end.

(** [with_autofill_axes] (line 253): the positions become [range(n_obs)];
    positions that are already there (a non-empty tuple) need [overwrite]. *)
Definition with_autofill_axes (self : Coordinates) (overwrite : bool) : result Coordinates :=
  if truthy (_axes self) && negb overwrite then Raise ValueError
  else new (opt_seq (_obs self)) (Some (map Z.of_nat (seq 0 (_n_obs self)))).

(** When the constructor is given a coordinate object, that object is
    assumed to satisfy the invariant. *)
Definition arg_valid (o : obs_arg) : Prop :=
  match o with
  | ObsCoords c => valid c
  | _ => True
  end.

End Coords.

(** ** Rectangular membership and input sanitising (lines 103-149) *)

Module Rect.
Import Backend.

(** [inside_rect_limits] (line 112) *)
Definition inside_rect_limits (x : tensor) (rect_limits : tensor * tensor) : result btensor :=
  if negb (1 <? ndims x)%nat then Raise ValueError
  else
    let '(lower, upper) := rect_limits in
    let lower := convert_to_tensor lower in
    let upper := convert_to_tensor upper in
    le ← less_equal x upper;
    below_upper ← reduce_all_last le;
    ge ← greater_equal x lower;
    above_lower ← reduce_all_last ge;
    logical_and above_lower below_upper.

(** [_sanitize_x_input] (line 137).  [n_obs] may be [None]; comparing it with
    a number is then a [TypeError]. *)
Definition _sanitize_x_input (x : tensor) (n_obs : option nat) : result tensor :=
  let x := convert_to_tensor x in
  x ←
    (if negb (1 <? ndims x)%nat then
       match n_obs with
       | None => Raise TypeError
       | Some n =>
           if (1 <? n)%nat then Raise ValueError
           else if (n =? 1)%nat then
             match x with
             | T0 v => Ok (T2 [[v]])
             | T1 vs => Ok (T2 (map (fun v => [v]) vs))
             | _ => Ok x
             end
           else Ok x
       end
     else Ok x);
  d ← last_dim x;
  if negb (bool_decide (Some d = n_obs)) then Raise ShapeIncompatibleError else Ok x.

(** The specification's reading of membership in a box: every coordinate of
    the point lies in the closed interval between the two bounds. *)
Definition in_closed_box (x lower upper : list Q) : Prop :=
  forall i xi li ui,
    x !! i = Some xi -> lower !! i = Some li -> upper !! i = Some ui ->
    (li <= xi)%Q /\ (xi <= ui)%Q.

End Rect.

(** ** Limit (lines 390-621) *)

Module Lim.
Import Backend Rect.

(** [limit_fn]: [None], [False] or a callable, which is compared by identity. *)
Inductive fn :=
  | FnNone
  | FnFalse
  | FnCallable (id : nat) (call : tensor -> result btensor).

Inductive rect :=
  | RectNone
  | RectFalse
  | RectPair (lower upper : tensor).

(** The attributes of a limit; [_is_rect] is [None], [True] or [False]. *)
Record Core := mkCore {
  _limit_fn : fn;
  _rect_limits : rect;
  _n_obs : option nat;
  _is_rect : option bool
}.

(** A limit with its sub-limits: [None] stands for the tuple [(self,)], the
    other case holds one single-dimension limit per dimension (each of which
    is its own only sub-limit). *)
Record Limit := mkLimit {
  core : Core;
  _sublimits : option (list Core)
}.

Definition own (c : Core) : Limit := mkLimit c None.

(** What [Limit(...)] is given as [limit_fn] and as [rect_limits]. *)
Inductive limit_arg :=
  | LNone
  | LFalse
  | LCallable (id : nat) (call : tensor -> result btensor)
  | LPair (lower upper : tensor)
  | LLimit (l : Limit).

Inductive rect_arg :=
  | RNone
  | RFalse
  | RPair (lower upper : tensor).

(** [_sanitize_rect_limit] (line 465) *)
Definition _sanitize_rect_limit (limit : tensor) : tensor :=
  match limit with
  | T0 x => T2 [[x]]
  | T1 xs => T2 [xs]
  | t => t
  end.

(** The properties (lines 473-553). *)
Definition rect_limits (self : Limit) : rect :=
  match _rect_limits (core self) with
  | RectPair lower upper => RectPair (convert_to_tensor lower) (convert_to_tensor upper)
  | r => r
  end.

Definition limits_not_set (self : Limit) : bool :=
  match rect_limits self with
  | RectNone => true
  | _ => false
  end.

Definition has_limits (self : Limit) : bool :=
  match rect_limits self with
  | RectFalse => false
  | _ => negb (limits_not_set self)
  end.

(** [self.has_limits and self._is_rect]: the first operand when it is false,
    else the second, which may be [None]. *)
Definition has_rect_limits (self : Limit) : option bool :=
  if has_limits self then _is_rect (core self) else Some false.

Definition truth (o : option bool) : bool :=
  match o with
  | Some b => b
  | None => false
  end.

Definition n_obs (self : Limit) : option nat := _n_obs (core self).
Definition limit_fn (self : Limit) : fn := _limit_fn (core self).

(** The tail of [_check_convert_input_limits] (lines 429-462), once the
    function and the box are told apart. *)
Definition convert_rect (limits_fn : fn) (lower upper : tensor)
    (n_obs : option nat) (limits_are_rect : bool) : result Limit :=
  let lower := _sanitize_rect_limit lower in
  let upper := _sanitize_rect_limit upper in
  lower_nobs ← last_dim lower;
  upper_nobs ← last_dim upper;
  if negb (lower_nobs =? upper_nobs)%nat then Raise InvalidArgumentError
  else if match n_obs with Some n => negb (lower_nobs =? n)%nat | None => false end
  then Raise InvalidArgumentError
  else
    let n_obs := lower_nobs in
    let c := mkCore limits_fn (RectPair lower upper) (Some n_obs) (Some limits_are_rect) in
    if limits_are_rect && (1 <? n_obs)%nat then
      subs ← traverse (fun i =>
                low ← gather lower [i];
                up ← gather upper [i];
                Ok (mkCore FnNone (RectPair low up) (Some 1%nat) (Some true)))
              (seq 0 n_obs);
      Ok (mkLimit c (Some subs))
    else Ok (own c).

(** [Limit.__init__] with [_check_convert_input_limits] (line 402) *)
Definition new (limit_fn : limit_arg) (rect_limits_arg : rect_arg) (n_obs : option nat)
  : result Limit :=
  match limit_fn with
  | LLimit limit =>
      if match rect_limits_arg with RNone => false | _ => true end
         || match n_obs with Some (S _) => true | _ => false end
      then Raise OverdefinedError
      else Ok (own (mkCore (Lim.limit_fn limit) (rect_limits limit) (Lim.n_obs limit)
                           (has_rect_limits limit)))
  | LFalse =>
      match rect_limits_arg with
      | RFalse | RNone => Ok (own (mkCore FnFalse RectFalse n_obs None))
      | RPair _ _ => Raise TypeError
      end
  | LNone =>
      match rect_limits_arg with
      | RFalse => Ok (own (mkCore FnFalse RectFalse n_obs None))
      | RNone => Ok (own (mkCore FnNone RectNone n_obs None))
      | RPair lower upper => convert_rect FnNone lower upper n_obs true
      end
  | LPair lower upper => convert_rect FnNone lower upper n_obs true
  | LCallable id call =>
      match rect_limits_arg with
      | RNone | RFalse => Raise ValueError
      | RPair lower upper => convert_rect (FnCallable id call) lower upper n_obs false
      end
  end.

(** [__iter__]: the sub-limits. *)
Definition iter (self : Limit) : list Limit :=
  match _sublimits self with
  | None => [self]
  | Some cs => map own cs
  end.

(** [_inside] and [inside] (lines 510-521) *)
Definition _inside (self : Limit) (x : tensor) (guarantee_limits : bool) : result btensor :=
  if truth (has_rect_limits self) then
    match rect_limits self with
    | RectPair lower upper => inside_rect_limits x (lower, upper)
    | _ => Raise TypeError
    end
  else
    match limit_fn self with
    | FnCallable _ call => call x
    | _ => Raise TypeError
    end.

Definition inside (self : Limit) (x : tensor) (guarantee_limits : bool) : result btensor :=
  x ← _sanitize_x_input x (n_obs self);
  if guarantee_limits && truth (has_rect_limits self) then
    match x with
    | T2 rows => Ok (broadcast_true rows)
    | _ => d ← last_dim x; Ok (B2 [replicate d true])
    end
  else _inside self x guarantee_limits.

(** [_rect_limits_np] (line 488): unpacking [None] or [False] is a [TypeError]. *)
Definition _rect_limits_np (self : Limit) : result (tensor * tensor) :=
  match _rect_limits (core self) with
  | RectPair lower upper =>
      lower ← _try_convert_numpy lower;
      upper ← _try_convert_numpy upper;
      Ok (lower, upper)
  | _ => Raise TypeError
  end.

Definition unpack (r : rect) : result (tensor * tensor) :=
  match r with
  | RectPair lower upper => Ok (lower, upper)
  | _ => Raise TypeError
  end.

(** [limit1.limit_fn == limit2.limit_fn] *)
Definition fn_eq (f g : fn) : bool :=
  match f, g with
  | FnNone, FnNone => true
  | FnFalse, FnFalse => true
  | FnCallable i _, FnCallable j _ => (i =? j)%nat
  | _, _ => false
  end.

(** The [try ... except CannotConvertToNumpyError] of both comparisons. *)
Definition bounds_to_compare (limit1 limit2 : Limit) (allow_graph : bool)
  : result ((tensor * tensor) * (tensor * tensor)) :=
  match (b1 ← _rect_limits_np limit1; b2 ← _rect_limits_np limit2; Ok (b1, b2)) with
  | Raise CannotConvertToNumpyError =>
      if negb allow_graph then Raise IllegalInGraphModeError
      else
        b1 ← unpack (rect_limits limit1);
        b2 ← unpack (rect_limits limit2);
        Ok (b1, b2)
  | r => r
  end.

(** [less_equal_limits] (line 584) *)
Definition less_equal_limits (limit1 limit2 : Limit) (allow_graph : bool) : result btensor :=
  '((lower1, upper1), (lower2, upper2)) ← bounds_to_compare limit1 limit2 allow_graph;
  l ← less_equal lower1 lower2;
  lower_le ← reduce_all_last l;
  u ← less_equal upper1 upper2;
  upper_le ← reduce_all_last u;
  rect_limits_le ← logical_and lower_le upper_le;
  let funcs_equal := fn_eq (limit_fn limit1) (limit_fn limit2) in
  logical_and rect_limits_le (B0 funcs_equal).

(** [equal_limits] (line 604) *)
Definition equal_limits (limit1 limit2 : Limit) (allow_graph : bool) : result btensor :=
  '((lower, upper), (lower_other, upper_other)) ← bounds_to_compare limit1 limit2 allow_graph;
  c ← allclose [lower; upper] [lower_other; upper_other];
  let rect_limits_equal := reduce_all c in
  let funcs_equal := fn_eq (limit_fn limit1) (limit_fn limit2) in
  logical_and rect_limits_equal (B0 funcs_equal).

(** The methods [less_equal] and [equal] default to [allow_graph=True]; the
    operators [<=] and [==] pass [allow_graph=False]. *)
Definition less_equal (self other : Limit) (allow_graph : bool) := less_equal_limits self other allow_graph.
Definition equal (self other : Limit) (allow_graph : bool) := equal_limits self other allow_graph.

(** The single-dimension rectangular limit between [x] and [y], the shape
    of every sub-limit. *)
Definition sub_core (x y : Q) : Core :=
  mkCore FnNone (RectPair (T2 [[x]]) (T2 [[y]])) (Some 1%nat) (Some true).

(** A limit whose two bounds are both unresolved. *)
Definition deferred (l : Limit) : Prop :=
  exists lower upper,
    _rect_limits (core l) = RectPair lower upper /\
    is_concrete lower = false /\ is_concrete upper = false.

End Lim.

(** ** Dictionaries of limits

    [_limits_dict] maps ['obs'] and ['axes'] to an inner dictionary from a
    tuple of dimensions to the limit that governs them.  Inner dictionaries
    are association lists in insertion order.  Two departures from that shape
    occur in the source and are kept: a key may be a bare dimension instead
    of a tuple and a value may be a generator object instead of a limit (both
    produced by [combine_spaces_new]), and an inner dictionary may be stored
    where the outer one is expected ([with_obs(None)], [with_axes(None)]). *)

Module Dict.

Inductive key (A : Type) :=
  | KTuple (cs : list A)
  | KBare (c : A).
Arguments KTuple {A} cs.
Arguments KBare {A} c.

#[global] Instance key_eq_dec {A} `{EqDecision A} : EqDecision (key A).
Proof. solve_decision. Defined.

Inductive entry :=
  | ELimit (l : Lim.Limit)
  | EGenerator.                 (* a generator object that nobody has consumed *)

Definition inner (A : Type) := list (key A * entry).

Inductive limits_dict :=
  | Outer (is_defaultdict : bool) (obs_items : option (inner string)) (axes_items : option (inner Z))
  | ObsInner (d : inner string)
  | AxesInner (d : inner Z).

(** [d[k] = v]: replace the value of an existing key, else append. *)
Fixpoint setitem {A} `{EqDecision A} (d : inner A) (k : key A) (v : entry) : inner A :=
  match d with
  | [] => [(k, v)]
  | (k', v') :: d' => if decide (k' = k) then (k, v) :: d' else (k', v') :: setitem d' k v
  end.

(** [len(d)] of the outer dictionary *)
Definition len (d : limits_dict) : nat :=
  match d with
  | Outer _ o a => length (option_list o) + length (option_list a)
  | ObsInner d => length d
  | AxesInner d => length d
  end.

(** [d.get('obs')] and [d.get('axes')] *)
Definition get_obs (d : limits_dict) : option (inner string) :=
  match d with
  | Outer _ o _ => o
  | _ => None
  end.

Definition get_axes (d : limits_dict) : option (inner Z) :=
  match d with
  | Outer _ _ a => a
  | _ => None
  end.

(** [d['obs']] and [d['axes']]: a [defaultdict(dict)] answers a missing key
    with an empty dictionary (which it also stores; that store is not
    modelled), a plain dictionary raises. *)
Definition getitem_obs (d : limits_dict) : result (inner string) :=
  match d with
  | Outer _ (Some i) _ => Ok i
  | Outer true None _ => Ok []
  | _ => Raise KeyError
  end.

Definition getitem_axes (d : limits_dict) : result (inner Z) :=
  match d with
  | Outer _ _ (Some i) => Ok i
  | Outer true _ None => Ok []
  | _ => Raise KeyError
  end.

End Dict.

(** ** Space (lines 624-1483) *)

Module Sp.
Import Backend Dict.

Record Space := mkSpace {
  name : string;
  coords : Coords.Coordinates;
  _limits_dict : limits_dict
}.

Definition obs (self : Space) := Coords._obs (coords self).
Definition axes (self : Space) := Coords._axes (coords self).
Definition n_obs (self : Space) := Coords._n_obs (coords self).

(** What [Space(...)] is given as [limits] and as [rect_limits]. *)
Inductive limits_arg :=
  | LimArg (a : Lim.limit_arg)
  | LimDict (d : limits_dict).

Inductive rect_limits_arg :=
  | RectArg (a : Lim.rect_arg)
  | RectDict (d : limits_dict).

(** [obs[i_old:i]] *)
Definition slice {A} (l : list A) (i_old i : nat) : list A := take (i - i_old) (drop i_old l).

(** The loop of [_check_convert_input_limits] (lines 932-939). *)
Fixpoint distribute (lims : list Lim.Limit) (obs : option (list string)) (axes : option (list Z))
    (i_old : nat) (od : option (inner string)) (ad : option (inner Z))
  : result (option (inner string) * option (inner Z)) :=
  match lims with
  | [] => Ok (od, ad)
  | lim :: lims' =>
      match Lim.n_obs lim with
      | None => Raise TypeError
      | Some n =>
          let i := i_old + n in
          let od := match obs with
                    | Some obs => Some (setitem (default [] od) (KTuple (slice obs i_old i)) (ELimit lim))
                    | None => od
                    end in
          let ad := match axes with
                    | Some axes => Some (setitem (default [] ad) (KTuple (slice axes i_old i)) (ELimit lim))
                    | None => ad
                    end in
          distribute lims' obs axes i od ad
      end
  end.

(** [Space._check_convert_input_limits] (line 915) *)
Definition _check_convert_input_limits (limit : limits_arg) (rect_limits : rect_limits_arg)
    (obs : option (list string)) (axes : option (list Z)) (n_obs : nat) : result limits_dict :=
  match limit with
  | LimDict d => Ok d
  | LimArg limit =>
      match rect_limits with
      | RectDict d => Ok d
      | RectArg rect_limits =>
          limit ← Lim.new limit rect_limits (Some n_obs);
          '(od, ad) ← distribute (Lim.iter limit) obs axes 0 None None;
          Ok (Outer true od ad)
      end
  end.

(** [Space.__init__] (line 832) *)
Definition new (obs : Coords.obs_arg) (limits : limits_arg) (axes : option (list Z))
    (rect_limits : rect_limits_arg) (name : option string) : result Space :=
  let name := default "space"%string name in
  coords ← Coords.new obs axes;
  limits_dict ← _check_convert_input_limits limits rect_limits
                   (Coords._obs coords) (Coords._axes coords) (Coords._n_obs coords);
  Ok (mkSpace name coords limits_dict).

Definition no_limits : limits_arg := LimArg Lim.LNone.
Definition no_rect : rect_limits_arg := RectArg Lim.RNone.

(** [limit.has_rect_limits] on a value of an inner dictionary: a generator
    has no such attribute. *)
Definition entry_has_rect_limits (e : entry) : result bool :=
  match e with
  | ELimit l => Ok (Lim.truth (Lim.has_rect_limits l))
  | EGenerator => Raise AttributeError
  end.

Definition values_have_rect_limits {A} (d : inner A) : result bool :=
  rect_limits ← traverse (fun kv => entry_has_rect_limits kv.2) d;
  Ok (all_true rect_limits && (0 <? length rect_limits)%nat).

(** [has_rect_limits] (line 1442, which replaces the definition of line 853) *)
Definition has_rect_limits (self : Space) : result bool :=
  match obs self with
  | Some _ =>
      match get_obs (_limits_dict self) with
      | None | Some [] => Ok false
      | Some d => values_have_rect_limits d
      end
  | None =>
      match get_axes (_limits_dict self) with
      | None | Some [] => Ok false
      | Some d => values_have_rect_limits d
      end
  end.

(** Lines 1072-1086 *)
Definition limits_not_set (self : Space) : bool := (len (_limits_dict self) =? 0)%nat.

Definition has_limits (self : Space) : result bool :=
  if negb (limits_not_set self) then has_rect_limits self else Ok false.

Definition limits_are_set (self : Space) : bool := negb (limits_not_set self).

Definition limits_are_false (self : Space) : result bool :=
  if limits_are_set self then negb <$> has_limits self else Ok false.

(** [Space.reorder_x] (line 1066) *)
Definition reorder_x (self : Space) (x : tensor)
    (x_obs : option (list string)) (x_axes : option (list Z))
    (func_obs : option (list string)) (func_axes : option (list Z)) : result tensor :=
  Coords.reorder_x (coords self) x x_obs x_axes func_obs func_axes.

(** [limit.rect_limits] unpacked into [lower, upper]. *)
Definition entry_rect_limits (e : entry) : result (tensor * tensor) :=
  match e with
  | ELimit l => Lim.unpack (Lim.rect_limits l)
  | EGenerator => Raise AttributeError
  end.

(** One round of the loop of [_rect_limits_z]: [obs_limit[0]] must exist, and
    extending a list by a bare name extends it by the characters of the name. *)
Definition chars (s : string) : list string :=
  map (fun a => String a EmptyString) (String.list_ascii_of_string s).

Definition obs_of_key (k : key string) : result (list string) :=
  match k with
  | KTuple [] => Raise IndexError
  | KTuple cs => Ok cs
  | KBare EmptyString => Raise IndexError
  | KBare c => Ok (chars c)
  end.

Definition axes_of_key (k : key Z) : result (list Z) :=
  match k with
  | KTuple [] => Raise IndexError
  | KTuple cs => Ok cs
  | KBare _ => Raise TypeError
  end.

Fixpoint collect_obs (d : inner string) : result (list string * list tensor * list tensor) :=
  match d with
  | [] => Ok ([], [], [])
  | (k, e) :: d' =>
      ks ← obs_of_key k;
      '(lower, upper) ← entry_rect_limits e;
      '(limits_obs, lowers, uppers) ← collect_obs d';
      Ok (ks ++ limits_obs, lower :: lowers, upper :: uppers)
  end.

Fixpoint collect_axes (d : inner Z) : result (list Z * list tensor * list tensor) :=
  match d with
  | [] => Ok ([], [], [])
  | (k, e) :: d' =>
      ks ← axes_of_key k;
      '(lower, upper) ← entry_rect_limits e;
      '(limits_obs, lowers, uppers) ← collect_axes d';
      Ok (ks ++ limits_obs, lower :: lowers, upper :: uppers)
  end.

(** [_rect_limits_z] (line 1044) *)
Definition _rect_limits_z (self : Space) : result (tensor * tensor) :=
  match obs self with
  | Some _ =>
      limits_dict ← getitem_obs (_limits_dict self);
      '(limits_obs, rect_lower_unordered, rect_upper_unordered) ← collect_obs limits_dict;
      lower_stacked ← concat rect_lower_unordered;
      lower_ordered ← reorder_x self lower_stacked (Some limits_obs) None None None;
      upper_stacked ← concat rect_upper_unordered;
      upper_ordered ← reorder_x self upper_stacked (Some limits_obs) None None None;
      Ok (lower_ordered, upper_ordered)
  | None =>
      limits_dict ← getitem_axes (_limits_dict self);
      '(limits_obs, rect_lower_unordered, rect_upper_unordered) ← collect_axes limits_dict;
      lower_stacked ← concat rect_lower_unordered;
      lower_ordered ← reorder_x self lower_stacked None (Some limits_obs) None None;
      upper_stacked ← concat rect_upper_unordered;
      upper_ordered ← reorder_x self upper_stacked None (Some limits_obs) None None;
      Ok (lower_ordered, upper_ordered)
  end.

(** [rect_limits] (line 1015): [False] or the pair of ordered bounds. *)
Definition rect_limits (self : Space) : result (option (tensor * tensor)) :=
  b ← has_rect_limits self;
  if negb b then Ok None
  else
    '(lower_ordered, upper_ordered) ← _rect_limits_z self;
    Ok (Some (convert_to_tensor lower_ordered, convert_to_tensor upper_ordered)).

(** [rect_lower] and [rect_upper] (lines 1128, 1148): indexing [False] is a
    [TypeError]. *)
Definition rect_lower (self : Space) : result tensor :=
  r ← rect_limits self;
  match r with
  | Some (lower, _) => Ok lower
  | None => Raise TypeError
  end.

Definition rect_upper (self : Space) : result tensor :=
  r ← rect_limits self;
  match r with
  | Some (_, upper) => Ok upper
  | None => Raise TypeError
  end.

(** Keyword arguments of [copy] and of the constructor.  A keyword that is
    not a parameter of [Space.__init__] carries its key only. *)
Definition parameters : list string := ["obs"; "limits"; "axes"; "rect_limits"; "name"]%string.

Definition is_parameter (k : string) : bool := bool_decide (k ∈ parameters).

Inductive kwarg :=
  | kw_obs (v : Coords.obs_arg)
  | kw_limits (v : limits_arg)
  | kw_axes (v : option (list Z))
  | kw_rect_limits (v : rect_limits_arg)
  | kw_name (v : option string)
  | kw_other (k : string) (not_a_parameter : is_parameter k = false).

Definition key_of (kw : kwarg) : string :=
  match kw with
  | kw_obs _ => "obs"
  | kw_limits _ => "limits"
  | kw_axes _ => "axes"
  | kw_rect_limits _ => "rect_limits"
  | kw_name _ => "name"
  | kw_other k _ => k
  end%string.

Definition kwargs := list kwarg.

Definition keys (kws : kwargs) : list string := map key_of kws.

(** [kwargs[k] = v] and [kwargs.update(other)] *)
Fixpoint set_kw (kws : kwargs) (kw : kwarg) : kwargs :=
  match kws with
  | [] => [kw]
  | kw' :: kws' =>
      if String.eqb (key_of kw') (key_of kw) then kw :: kws' else kw' :: set_kw kws' kw
  end.

Definition update (kws other : kwargs) : kwargs := foldl set_kw kws other.

(** [set(a) - set(b)] *)
Definition set_difference (a b : list string) : list string :=
  filter (fun k => k ∉ b) a.

(** The constructor called with a dictionary of keyword arguments: a keyword
    it does not know is a [TypeError]; an omitted parameter takes its default. *)
Definition get_obs_kw (kws : kwargs) : Coords.obs_arg :=
  default Coords.ObsNone (last (omap (fun kw => match kw with kw_obs v => Some v | _ => None end) kws)).
Definition get_limits_kw (kws : kwargs) : limits_arg :=
  default no_limits (last (omap (fun kw => match kw with kw_limits v => Some v | _ => None end) kws)).
Definition get_axes_kw (kws : kwargs) : option (list Z) :=
  default None (last (omap (fun kw => match kw with kw_axes v => Some v | _ => None end) kws)).
Definition get_rect_limits_kw (kws : kwargs) : rect_limits_arg :=
  default no_rect (last (omap (fun kw => match kw with kw_rect_limits v => Some v | _ => None end) kws)).
Definition get_name_kw (kws : kwargs) : option string :=
  default (Some "Space"%string) (last (omap (fun kw => match kw with kw_name v => Some v | _ => None end) kws)).

Definition call (kws : kwargs) : result Space :=
  if negb (forallb is_parameter (keys kws)) then Raise TypeError
  else new (get_obs_kw kws) (get_limits_kw kws) (get_axes_kw kws)
           (get_rect_limits_kw kws) (get_name_kw kws).

(** [copy] (line 1416) *)
Definition copy (self : Space) (overwrite_kwargs : kwargs) : result Space :=
  let kwargs := [kw_name (Some (name self));
                 kw_limits (LimDict (_limits_dict self));
                 kw_axes (axes self);
                 kw_obs (Coords.opt_seq (obs self))] in
  let kwargs := update kwargs overwrite_kwargs in
  match set_difference (keys overwrite_kwargs) (keys kwargs) with
  | _ :: _ => Raise KeyError
  | [] => call kwargs
  end.

(** [with_obs] (line 1222) *)
Definition with_obs (self : Space) (obs_arg : option (list string))
    (allow_superset allow_subset : bool) : result Space :=
  match obs_arg with
  | None =>
      match obs self, axes self with
      | None, _ => Ok self
      | Some _, None => Raise AxesIncompatibleError
      | Some _, Some _ =>
          new_limits ← getitem_obs (_limits_dict self);
          copy self [kw_obs Coords.ObsNone; kw_limits (LimDict (ObsInner new_limits))]
      end
  | Some obs =>
      coords ← Coords.with_obs (coords self) (Some obs) allow_superset allow_subset;
      new (Coords.ObsCoords coords) (LimDict (_limits_dict self)) None no_rect (Some "Space"%string)
  end.

(** The branch of lines 1271-1277 never returns.  Its loop iterates over the
    keys and unpacks each into two names: a [ValueError] unless the key has
    two elements; then [obs.index[ob]] subscripts a method, a [TypeError],
    unless the first element is the empty string, in which case the copied
    inner dictionary is indexed by ['axes'].  Without any key the loop is
    skipped and [new_space] is returned unassigned. *)
Definition first_round (d : inner string) : exn :=
  match d with
  | [] => UnboundLocalError
  | (k, _) :: _ =>
      match (match k with KTuple cs => cs | KBare c => chars c end) with
      | [a; _] =>
          if String.eqb a EmptyString then
            (if bool_decide (KBare "axes"%string ∈ d.*1) then TypeError else KeyError)
          else TypeError
      | _ => ValueError
      end
  end.

(** [with_axes] (line 1250) *)
Definition with_axes (self : Space) (axes_arg : option (list Z))
    (allow_superset allow_subset : bool) : result Space :=
  match axes_arg with
  | None =>
      match axes self, obs self with
      | None, _ => Ok self
      | Some _, None => Raise ObsIncompatibleError
      | Some _, Some _ =>
          new_limits ← getitem_axes (_limits_dict self);
          copy self [kw_axes None; kw_limits (LimDict (AxesInner new_limits))]
      end
  | Some ax =>
      ax ← Coords.convert_to_axes (Coords.plain_axes (Some ax));
      let ax := default [] ax in
      match axes self with
      | None =>
          match obs self with
          | None => Raise TypeError
          | Some o =>
              if negb (length ax =? length o)%nat then Raise AxesIncompatibleError
              else d ← getitem_obs (_limits_dict self); Raise (first_round d)
          end
      | Some _ =>
          coords ← Coords.with_axes (coords self) (Some ax) allow_superset allow_subset;
          new (Coords.ObsCoords coords) (LimDict (_limits_dict self)) None no_rect (Some "Space"%string)
      end
  end.

(** [_inside] (line 1453) and [BaseSpace.inside] (line 631) *)
Definition entry_inside (e : entry) (x : tensor) : result btensor :=
  match e with
  | ELimit l => Lim.inside l x false
  | EGenerator => Raise AttributeError
  end.

Definition _inside (self : Space) (x : tensor) (guarantee_limits : bool) : result btensor :=
  xs_inside ←
    match obs self with
    | Some _ =>
        limits_dict ← getitem_obs (_limits_dict self);
        traverse (fun '(k, limit) =>
                    let coords := match k with KTuple cs => cs | KBare c => chars c end in
                    x_sub ← reorder_x self x None None (Some coords) None;
                    entry_inside limit x_sub) limits_dict
    | None =>
        limits_dict ← getitem_axes (_limits_dict self);
        traverse (fun '(k, limit) =>
                    match k with
                    | KTuple coords =>
                        x_sub ← reorder_x self x None None None (Some coords);
                        entry_inside limit x_sub
                    | KBare _ => Raise TypeError
                    end) limits_dict
    end;
  reduce_all_stack xs_inside.

Definition inside (self : Space) (x : tensor) (guarantee_limits : bool) : result btensor :=
  x ← Rect._sanitize_x_input x (Some (n_obs self));
  rect ← has_rect_limits self;
  if rect && guarantee_limits then
    match x with
    | T2 rows => Ok (broadcast_true rows)
    | _ => d ← last_dim x; Ok (B2 [replicate d true])
    end
  else _inside self x guarantee_limits.

(** What the constructor returns for the coordinates and the limits
    dictionary of a space when no name is passed. *)
Definition rebuilt (self : Space) : Space :=
  mkSpace "Space" (coords self) (_limits_dict self).

(** Two spaces with the same coordinates and the same limits (the name is
    not part of what a space describes). *)
Definition same (a b : Space) : Prop :=
  coords a = coords b /\ _limits_dict a = _limits_dict b.

(** [with_limits] (line 1205): a new space over the same coordinates; the
    [name] argument is not passed on. *)
Definition with_limits (self : Space) (limits : limits_arg) (rect_limits : rect_limits_arg)
    (name : option string) : result Space :=
  new (Coords.ObsCoords (coords self)) limits None rect_limits (Some "Space"%string).

(** [Space.with_autofill_axes] (line 1364) *)
Definition with_autofill_axes (self : Space) (overwrite : bool) : result Space :=
  if bool_decide (axes self = None) || overwrite then
    let new_axes := map Z.of_nat (seq 0 (n_obs self)) in
    copy self [kw_axes (Some new_axes)]
  else Ok self.

(** The elements of a dictionary key, as [frozenset(key)] and [len(key)] see
    them: those of a tuple, the characters of a bare name; a bare position
    cannot be iterated. *)
Definition elems_obs (k : key string) : result (list string) :=
  match k with
  | KTuple cs => Ok cs
  | KBare c => Ok (chars c)
  end.

Definition elems_axes (k : key Z) : result (list Z) :=
  match k with
  | KTuple cs => Ok cs
  | KBare _ => Raise TypeError
  end.

(** [sorted(items, key=len of the key, reverse=True)]: the longest keys
    first, items with keys of the same length in their order of insertion. *)
Fixpoint insert_by_len {B} (x : nat * B) (l : list (nat * B)) : list (nat * B) :=
  match l with
  | [] => [x]
  | y :: l' => if (x.1 <? y.1)%nat then y :: insert_by_len x l' else x :: l
  end.

Definition sorted_longest_first {B} (l : list (nat * B)) : list B :=
  (foldr insert_by_len [] l).*2.

Section extract_limits.
Context {A : Type} `{EqDecision A}.

Variable elems : key A -> result (list A).

(** [limit.get_subspace(...)] followed by [limit.obs] (or [limit.axes]):
    the sub-limit of a stored limit and the key it is stored under.  Both
    belong to the interface of the stored object, which this file does not
    define; the functions below take them as they come. *)
Variable sub_limit : entry -> list A -> result (key A * entry).

(** The loop of [_extract_limits] (lines 983-999). *)
Fixpoint extract_loop (items : inner A) (coords_to_extract : list A)
    (limits_to_eval : inner A) : result (inner A) :=
  match items with
  | [] => Ok limits_to_eval
  | (key_coords, limit) :: items' =>
      cs ← elems key_coords;
      let coord_intersec := filter (fun c => c ∈ coords_to_extract) cs in
      match coord_intersec with
      | [] => extract_loop items' coords_to_extract limits_to_eval
      | _ :: _ =>
          if forallb (fun c => is_in c coords_to_extract) cs
          then extract_loop items' coords_to_extract (setitem limits_to_eval key_coords limit)
          else
            '(sublimit_coord, sublimit) ← sub_limit limit coord_intersec;
            extract_loop items' (filter (fun c => c ∉ coord_intersec) coords_to_extract)
                         (setitem limits_to_eval sublimit_coord sublimit)
      end
  end.

(** [_extract_limits] (line 967) for the requested coordinates and the inner
    dictionary of their kind. *)
Definition _extract_limits (coords_to_extract : list A) (limit_dict : inner A)
  : result (inner A) :=
  keyed ← traverse (fun kv : key A * entry => cs ← elems kv.1; Ok (length cs, kv)) limit_dict;
  extract_loop (sorted_longest_first keyed) coords_to_extract [].
End extract_limits.

(** [get_subspace] (line 1387) with tuples of names or of positions; the
    [name] argument is not used, and the selected limits are handed to the
    constructor as the dictionary that [_extract_limits] returns. *)
Definition get_subspace (sub_obs : entry -> list string -> result (key string * entry))
    (sub_axes : entry -> list Z -> result (key Z * entry))
    (self : Space) (obs : option (list string)) (axes : option (list Z))
    (name : option string) : result Space :=
  match obs, axes with
  | Some _, Some _ => Raise ValueError
  | None, None => Raise ValueError
  | Some obs, None =>
      limit_dict ← getitem_obs (_limits_dict self);
      limits_dict ← _extract_limits elems_obs sub_obs obs limit_dict;
      new_coords ← Coords.with_obs (coords self) (Some obs) false true;
      new (Coords.ObsCoords new_coords) (LimDict (ObsInner limits_dict)) None no_rect
          (Some "Space"%string)
  | None, Some axes =>
      limit_dict ← getitem_axes (_limits_dict self);
      limits_dict ← _extract_limits elems_axes sub_axes axes limit_dict;
      new_coords ← Coords.with_axes (coords self) (Some axes) false true;
      new (Coords.ObsCoords new_coords) (LimDict (AxesInner limits_dict)) None no_rect
          (Some "Space"%string)
  end.

End Sp.

(** ** MultiSpace and the union of spaces (lines 1486-1501, 1774-1985) *)

Module Multi.
Import Dict.

Record MultiSpace := mkMultiSpace {
  name : string;
  coords : Coords.Coordinates;
  spaces : list Sp.Space
}.

(** Anything that is a [ZfitSpace]. *)
Inductive zspace :=
  | ZSpace (s : Sp.Space)
  | ZMulti (m : MultiSpace).

(** [__iter__]: a space yields itself, a multi-space its alternatives. *)
Definition iter (z : zspace) : list Sp.Space :=
  match z with
  | ZSpace s => [s]
  | ZMulti m => spaces m
  end.

(** [flatten_spaces] (line 1770) *)
Definition flatten_spaces (spaces : list zspace) : list Sp.Space :=
  mjoin (map iter spaces).

(** [all(f(s) for s in l)] and [any(...)] over a generator: evaluation stops
    at the first element that decides, and at the first exception. *)
Fixpoint all_of {A} (f : A -> result bool) (l : list A) : result bool :=
  match l with
  | [] => Ok true
  | a :: l' => b ← f a; if (b : bool) then all_of f l' else Ok false
  end.

Fixpoint any_of {A} (f : A -> result bool) (l : list A) : result bool :=
  match l with
  | [] => Ok false
  | a :: l' => b ← f a; if (b : bool) then Ok true else any_of f l'
  end.

(** [spaces[0]] *)
Definition first {A} (l : list A) : result A :=
  match l with
  | a :: _ => Ok a
  | [] => Raise IndexError
  end.

(** [_check_convert_input_spaces_obs_axes] (line 1801) *)
Definition _check_convert_input_spaces_obs_axes (spaces : list zspace)
    (obs : option (list string)) (axes : option (list Z))
  : result (list Sp.Space * option (list string) * option (list Z)) :=
  let spaces := flatten_spaces spaces in
  let all_have_obs := forallb (fun space => bool_decide (Sp.obs space ≠ None)) spaces in
  let all_have_axes := forallb (fun space => bool_decide (Sp.axes space ≠ None)) spaces in
  axes ←
    (if all_have_axes then
       match axes with
       | None => s0 ← first spaces; Ok (Sp.axes s0)
       | Some _ => Coords.convert_to_axes (Coords.plain_axes axes)
       end
     else Ok axes);
  '(spaces, obs) ←
    (if all_have_obs then
       obs ← match obs with
             | None => s0 ← first spaces; Ok (Sp.obs s0)
             | Some o => Coords.convert_to_obs_str (Coords.ObsSeq o)
             end;
       spaces ← traverse (fun space => Sp.with_obs space obs false false) spaces;
       if negb (all_have_axes && forallb (fun space => bool_decide (Sp.axes space = axes)) spaces)
       then
         spaces ← traverse (fun space => Sp.with_axes space None false false) spaces;
         Ok (spaces, obs)
       else Ok (spaces, obs)
     else if all_have_axes then
       if forallb (fun space => bool_decide (Sp.obs space = None)) spaces then
         spaces ← traverse (fun space => Sp.with_axes space axes false false) spaces;
         Ok (spaces, obs)
       else Ok (spaces, obs)
     else Raise SpaceIncompatibleError);
  all_limits ← all_of Sp.has_limits spaces;
  spaces ←
    (if (all_limits : bool) then Ok spaces      (* "check overlap, reduce common limits": pass *)
     else
       any_limits ← any_of Sp.has_limits spaces;
       if negb any_limits then (s0 ← first spaces; Ok [s0])
       else Raise LimitsIncompatibleError);
  Ok (spaces, obs, axes).

(** [MultiSpace.__new__] and [__init__] (lines 1776-1791): a single
    remaining alternative is returned itself. *)
Definition new (spaces : list zspace) (obs : option (list string)) (axes : option (list Z))
    (name : option string) : result zspace :=
  '(spaces, obs, axes) ← _check_convert_input_spaces_obs_axes spaces obs axes;
  match spaces with
  | [space] => Ok (ZSpace space)
  | _ =>
      let name := default "MultiSpace"%string name in
      coords ← Coords.new (Coords.opt_seq obs) axes;
      Ok (ZMulti (mkMultiSpace name coords spaces))
  end.

(** [add_spaces_new] (line 1486); every argument is a [ZfitSpace] by typing. *)
Definition add_spaces_new (spaces : list zspace) (name : option string) : result zspace :=
  new spaces None None name.

Definition obs (z : zspace) : option (list string) :=
  match z with
  | ZSpace s => Sp.obs s
  | ZMulti m => Coords._obs (coords m)
  end.

Definition axes (z : zspace) : option (list Z) :=
  match z with
  | ZSpace s => Sp.axes s
  | ZMulti m => Coords._axes (coords m)
  end.

(** The value of the [limits] property: [None], [False] or a pair of bounds. *)
Inductive limits_value :=
  | LvNone
  | LvFalse
  | LvPair (lower upper : Backend.tensor).

(** [Space.limits] (line 1006) is [rect_limits]; [MultiSpace.limits]
    (line 1891) is [None] when every alternative has [limits is None] and
    raises otherwise. *)
Definition space_limits (s : Sp.Space) : result limits_value :=
  r ← Sp.rect_limits s;
  match r with
  | None => Ok LvFalse
  | Some (lower, upper) => Ok (LvPair lower upper)
  end.

Definition limits (z : zspace) : result limits_value :=
  match z with
  | ZSpace s => space_limits s
  | ZMulti m =>
      b ← all_of (fun space => v ← space_limits space;
                               Ok match v with LvNone => true | _ => false end) (spaces m);
      if (b : bool) then Ok LvNone else Raise MultipleLimitsNotImplementedError
  end.

End Multi.

(** ** Cross product of spaces (lines 1518-1653) *)

Module Combine.
Import Dict.

(** Modelled from the spec: [dimension.common_obs] and [dimension.common_axes]
    are not part of this file's source; they compute "the union of dimension
    identifiers", in the order of first appearance over the spaces in their
    order.  A space without the coordinate contributes nothing. *)
Definition union_in_order {A} `{EqDecision A} (ls : list (list A)) : list A :=
  foldl (fun acc l => foldl (fun acc a => if decide (a ∈ acc) then acc else acc ++ [a]) acc l) [] ls.

Definition common_obs (spaces : list Sp.Space) : list string :=
  union_in_order (omap Sp.obs spaces).

Definition common_axes (spaces : list Sp.Space) : list Z :=
  union_in_order (omap Sp.axes spaces).

(** The loop over [all_coords] (lines 1572-1589).  What is appended to
    [limits_coord] for each space is a generator expression, an object that
    is never run; two generators are different objects, so [!=] between them
    is true; and the dictionary is keyed by the bare coordinate. *)
Fixpoint combine_limits {A} `{EqDecision A} (get_coord : Sp.Space -> option (list A))
    (spaces : list Sp.Space) (all_coords : list A) (limits_dict : inner A) : result (inner A) :=
  match all_coords with
  | [] => Ok limits_dict
  | coord :: rest =>
      space_with_coord ←
        traverse (fun space =>
                    match get_coord space with
                    | Some cs => Ok (space, is_in coord cs)
                    | None => Raise TypeError
                    end) spaces;
      let space_with_coord := (filter (fun p => p.2 = true) space_with_coord).*1 in
      match space_with_coord with
      | [] => Raise AssertionError
      | _ =>
          let limits_coord := map (fun _ => EGenerator) space_with_coord in
          let any_non_equal := existsb (fun _ => true) (tail limits_coord) in
          if any_non_equal then Raise LimitsIncompatibleError
          else
            limit0 ← Multi.first limits_coord;
            combine_limits get_coord spaces rest (setitem limits_dict (KBare coord) limit0)
      end
  end.

(** [combine_spaces_new] (line 1525), on spaces proper. *)
Definition combine_spaces_new (spaces : list Sp.Space) : result Sp.Space :=
  let all_obs := common_obs spaces in
  let all_axes := common_axes spaces in
  let using_obs := match all_obs with [] => false | _ => true end in
  spaces ←
    (if using_obs then traverse (fun space => Sp.with_obs space (Some all_obs) true false) spaces
     else match all_axes with
          | _ :: _ => traverse (fun space => Sp.with_axes space (Some all_axes) true false) spaces
          | [] => Raise CoordinatesUnderdefinedError
          end);
  limits_are_false ← traverse Sp.limits_are_false spaces;
  let all_limits_false := Backend.all_true limits_are_false in
  let all_limits_not_set := Backend.all_true (map Sp.limits_not_set spaces) in
  has_limits ← traverse Sp.has_limits spaces;
  limits ←
    (if all_limits_false then Ok (Sp.LimArg Lim.LFalse)
     else if all_limits_not_set then Ok (Sp.LimArg Lim.LNone)
     else if negb (Backend.all_true has_limits) then Raise LimitsIncompatibleError
     else if using_obs then
       limits_dict ← combine_limits Sp.obs spaces all_obs [];
       Ok (Sp.LimDict (Outer false (Some limits_dict) None))
     else
       limits_dict ← combine_limits Sp.axes spaces all_axes [];
       Ok (Sp.LimDict (Outer false None (Some limits_dict))));
  Sp.new (if using_obs then Coords.ObsSeq all_obs else Coords.ObsNone)
         limits
         (match all_axes with [] => None | _ => Some all_axes end)
         Sp.no_rect (Some "Space"%string).

End Combine.

(** ** Ordering and equality of spaces (lines 772-775, 1656-1702) *)

Module Order.
Import Multi.

Section comparison.
(** [compare_limits_multispace] (line 1705) starts with [len(space1)],
    which is answered by the interface classes, not by this file: the
    function is a parameter here. *)
Variable compare_limits_multispace :
  zspace -> zspace -> (Lim.Limit -> Lim.Limit -> result Backend.btensor) -> result bool.

(** [set(a) != set(b)] *)
Definition set_ne {A} `{EqDecision A} (a b : list A) : bool := negb (frozenset_eq a b).

(** [compare_multispace] (line 1666) *)
Definition compare_multispace (space1 space2 : zspace)
    (comparator : Lim.Limit -> Lim.Limit -> result Backend.btensor) : result bool :=
  let axes_differ :=
    match axes space1, axes space2 with
    | Some a1, Some a2 => Some (set_ne a1 a2)
    | _, _ => None
    end in
  let obs_differ :=
    match obs space1, obs space2 with
    | Some o1, Some o2 => Some (set_ne o1 o2)
    | _, _ => None
    end in
  match axes_differ, obs_differ with
  | None, None => Ok false
  | Some true, _ => Ok false
  | _, Some true => Ok false
  | _, _ =>
      limits1 ← limits space1;
      match limits1 with
      | LvNone =>
          limits2 ← limits space2;
          Ok match limits2 with LvNone => true | _ => false end
      | LvFalse =>
          limits2 ← limits space2;
          Ok match limits2 with LvFalse => true | _ => false end
      | LvPair _ _ => compare_limits_multispace space1 space2 comparator
      end
  end.

(** A call of [less_equal_space(space1, space2, allow_graph=True)] (line
    1656) with the given positional arguments: binding the parameters
    fails when a required one is missing or when there are too many. *)
Definition less_equal_space (args : list zspace) : result bool :=
  match args with
  | [space1; space2] =>
      compare_multispace space1 space2 (fun limit1 limit2 => Lim.less_equal limit1 limit2 true)
  | [space1; space2; allow_graph] =>
      compare_multispace space1 space2 (fun limit1 limit2 => Lim.less_equal limit1 limit2 true)
  | _ => Raise TypeError
  end.

Inductive answer := Answer (b : bool) | NotImplemented.

(** [isinstance(other, type(self))] for the two final classes. *)
Definition isinstance_type_of (other self : zspace) : bool :=
  match other, self with
  | ZSpace _, ZSpace _ => true
  | ZMulti _, ZMulti _ => true
  | _, _ => false
  end.

(** [BaseSpace.__le__] (line 772) and [BaseSpace.__ge__] (line 808) *)
Definition __le__ (self other : zspace) : result answer :=
  if negb (isinstance_type_of other self) then Ok NotImplemented
  else Answer <$> less_equal_space [other].

Definition __ge__ (self other : zspace) : result answer := Ok NotImplemented.

(** The operator [s1 <= s2]: neither class derives from the other, so
    [s1.__le__(s2)] is asked first and [s2.__ge__(s1)] after it. *)
Definition le (s1 s2 : zspace) : result bool :=
  r ← __le__ s1 s2;
  match r with
  | Answer b => Ok b
  | NotImplemented =>
      r' ← __ge__ s2 s1;
      match r' with
      | Answer b => Ok b
      | NotImplemented => Raise TypeError
      end
  end.
End comparison.


Section equality.
(** As for the ordering, [compare_limits_multispace] is a parameter. *)
Variable compare_limits_multispace :
  zspace -> zspace -> (Lim.Limit -> Lim.Limit -> result Backend.btensor) -> result bool.

(** A call of [equal_space(space1, space2, allow_graph=True)] (line 1661)
    with the given positional arguments and, possibly, the keyword
    [allow_graph]. *)
Definition equal_space (args : list zspace) (allow_graph : option bool) : result bool :=
  match args, allow_graph with
  | [space1; space2], _ =>
      compare_multispace compare_limits_multispace space1 space2
        (fun limit1 limit2 => Lim.equal limit1 limit2 (default true allow_graph))
  | [space1; space2; _], None =>
      compare_multispace compare_limits_multispace space1 space2
        (fun limit1 limit2 => Lim.equal limit1 limit2 true)
  | _, _ => Raise TypeError
  end.

(** [BaseSpace.equal] (line 759): every [zspace] is a [ZfitSpace]. *)
Definition equal (self other : zspace) (allow_graph : bool) : result bool :=
  equal_space [other] (Some allow_graph).

(** [BaseSpace.__eq__], in its last definition (line 811), which is the one
    the class keeps; [MultiSpace] has its own. *)
Definition __eq__ (self other : Sp.Space) : result bool :=
  equal_space [ZSpace self; ZSpace other] None.
End equality.

End Order.

(** ** Shapes that the statements below talk about *)

Section shapes.
Import Backend Dict Lim.

(** The limit the constructor builds from two flat rows. *)
Definition box_limit (lo up : list Q) : Limit :=
  mkLimit (mkCore FnNone (RectPair (T2 [lo]) (T2 [up])) (Some (length lo)) (Some true))
          (if (1 <? length lo)%nat then Some (zip_with sub_core lo up) else None).

(** The inner dictionary of a space over [names] built from two flat rows:
    one entry per name, keyed by the one-element tuple of the name. *)
Definition singleton_entries (names : list string) (lo up : list Q)
  : list (key string * entry) :=
  zip_with (fun o c => (KTuple [o], ELimit (Lim.own c))) names (zip_with Lim.sub_core lo up).

(** The space over [names] with one sub-limit per name. *)
Definition box_space (names : list string) (lo up : list Q) (name : option string) : Sp.Space :=
  Sp.mkSpace (default "space"%string name)
             (Coords.mkCoordinates (Some names) None (length names))
             (Outer true (Some (singleton_entries names lo up)) None).

(** The ways of passing no limits to the constructor: [limits] is [None] or
    [False] and [rect_limits] is [None] or [False]. *)
Definition absent (l : Lim.limit_arg) (r : Lim.rect_arg) : bool :=
  match l, r with
  | (Lim.LNone | Lim.LFalse), (Lim.RNone | Lim.RFalse) => true
  | _, _ => false
  end.

(** One closed-interval test per coordinate of the event [x]. *)
Definition coordinate_tests (x lo up : list Q) : list bool :=
  zip_with (fun xi lu => Qle_bool lu.1 xi && Qle_bool xi lu.2) x (zip lo up).

(** The key of a name that was asked for. *)
Definition requested (sel : list string) (kv : key string * entry) : Prop :=
  kv.1 ∈ map (fun o => KTuple [o]) sel.

#[global] Instance requested_dec sel kv : Decision (requested sel kv).
Proof. unfold requested. apply _. Defined.

End shapes.

(** * Properties *)

(** ** Comprehensions that cannot fail *)

Lemma traverse_total {A B} (f : A -> result B) (l : list A) :
  (forall a, a ∈ l -> exists b, f a = Ok b) ->
  exists bs, traverse f l = Ok bs /\ length bs = length l.
Proof.
  induction l as [|a l IH]; intros Hf; simpl.
  - by exists [].
  - destruct (Hf a) as [b Hb]; [by left|].
    destruct IH as (bs & Hbs & Hlen); [intros a' Ha'; apply Hf; by right|].
    rewrite Hb, Hbs. simpl. exists (b :: bs). by rewrite <- Hlen.
Qed.

Lemma traverse_Ok_map {A B} (f : A -> B) (l : list A) :
  traverse (fun a => Ok (f a)) l = Ok (map f l).
Proof. induction l as [|a l IH]; simpl; [done|]. by rewrite IH. Qed.

(** ** Bound sentinels *)

Section sentinel_facts.
Import Sentinel.

(** A method found for a class itself is the one the slot calls. *)
Lemma slot_AnyLower (op : cmpop) (w : value) :
  slot_richcompare ANY_LOWER w op =
    RBool match op with op_ge | op_gt => false | _ => true end.
Proof. by destruct op. Qed.

Lemma slot_AnyUpper (op : cmpop) (w : value) :
  slot_richcompare ANY_UPPER w op =
    RBool match op with op_le | op_lt => false | _ => true end.
Proof. by destruct op. Qed.

Lemma slot_Any (op : cmpop) (w : value) : slot_richcompare ANY w op = RBool true.
Proof. by destruct op. Qed.

(** No class of the model derives from [AnyLower] or [AnyUpper], so their
    own method always answers. *)
Lemma richcompare_AnyLower (op : cmpop) (w : value) :
  richcompare op ANY_LOWER w = Ok match op with op_ge | op_gt => false | _ => true end.
Proof.
  unfold richcompare.
  replace (negb (bool_decide (type_of ANY_LOWER = type_of w))
           && issubclass (type_of w) (type_of ANY_LOWER)) with false
    by (by destruct w).
  by rewrite slot_AnyLower.
Qed.

Lemma richcompare_AnyUpper (op : cmpop) (w : value) :
  richcompare op ANY_UPPER w = Ok match op with op_le | op_lt => false | _ => true end.
Proof.
  unfold richcompare.
  replace (negb (bool_decide (type_of ANY_UPPER = type_of w))
           && issubclass (type_of w) (type_of ANY_UPPER)) with false
    by (by destruct w).
  by rewrite slot_AnyUpper.
Qed.

(** C7, as stated, fails: [ANY <= ANY_LOWER] is [False], because the
    reflected [ANY_LOWER.__ge__(ANY)] of the subclass is asked first. *)
Lemma ANY_le_ANY_LOWER_is_False :
  richcompare op_le ANY ANY_LOWER = Ok false /\
  richcompare op_lt ANY ANY_LOWER = Ok false /\
  richcompare op_ge ANY ANY_UPPER = Ok false /\
  richcompare op_gt ANY ANY_UPPER = Ok false.
Proof. by repeat split. Qed.

(** C7 (amended): for every value [v], [ANY_LOWER <= v] is true and
    [ANY_LOWER > v] is false, [ANY_UPPER >= v] is true and [ANY_UPPER < v]
    is false; and [ANY op v] is true for each of the four order relations
    except on the pairs where [v] is a sub-sentinel that answers the
    reflected relation first: [ANY < ANY_LOWER], [ANY <= ANY_LOWER],
    [ANY >= ANY_UPPER] and [ANY > ANY_UPPER] are false. *)
Theorem sentinels_order_surrogates (v : value) :
  richcompare op_le ANY_LOWER v = Ok true /\
  richcompare op_gt ANY_LOWER v = Ok false /\
  richcompare op_ge ANY_UPPER v = Ok true /\
  richcompare op_lt ANY_UPPER v = Ok false /\
  forall op, richcompare op ANY v = Ok (negb (subclass_answers_first op v)).
Proof.
  repeat split; try (by rewrite ?richcompare_AnyLower, ?richcompare_AnyUpper).
  intros op. unfold richcompare.
  destruct v; simpl.
  - by rewrite slot_Any.
  - by rewrite slot_Any.
  - by rewrite slot_Any.
  - by rewrite slot_Any.
  - rewrite slot_AnyLower. by destruct op.
  - rewrite slot_AnyUpper. by destruct op.
Qed.
End sentinel_facts.


(** ** Membership in a rectangular limit *)

Section inside_facts.
Import Backend Rect.
Local Open Scope Q_scope.

Lemma all_true_zip_with {A B} (f : A -> B -> bool) (xs : list A) (ys : list B) :
  all_true (zip_with f xs ys) = true <->
  forall i a b, xs !! i = Some a -> ys !! i = Some b -> f a b = true.
Proof.
  revert ys. induction xs as [|x xs IH]; intros [|y ys]; simpl.
  - split; [intros _ i a b Hx | done]. by rewrite lookup_nil in Hx.
  - split; [intros _ i a b Hx | done]. by rewrite lookup_nil in Hx.
  - split; [intros _ i a b _ Hy | done]. by rewrite lookup_nil in Hy.
  - rewrite andb_true_iff, IH. split.
    + intros [Hf Hrest] [|i] a b Ha Hb; simpl in *.
      * by simplify_eq.
      * by eapply Hrest.
    + intros H. split.
      * by apply (H 0%nat).
      * intros i a b Ha Hb. by apply (H (S i)).
Qed.

Lemma elementwise2_one_row {A B C} (f : A -> B -> C) (x : list A) (y : list B) :
  length y = length x ->
  elementwise2 f [x] [y] = Ok [zip_with f x y].
Proof.
  intros Hlen. unfold elementwise2, broadcast_with. simpl.
  by rewrite Hlen, Nat.eqb_refl.
Qed.

(** One event against one box: the answer is the conjunction of all the
    coordinate tests. *)
Lemma inside_rect_limits_row (x lower upper : list Q) :
  length lower = length x -> length upper = length x ->
  inside_rect_limits (T2 [x]) (T2 [lower], T2 [upper]) =
    Ok (B1 [all_true (zip_with (fun p q => Qle_bool q p) x lower)
            && all_true (zip_with Qle_bool x upper)]).
Proof.
  intros Hl Hu. unfold inside_rect_limits, less_equal, greater_equal, compare_rows. simpl.
  by rewrite !elementwise2_one_row.
Qed.

(** C6: membership in a rectangular limit is a closed-interval test.  For
    one event and one box of the same dimension [inside_rect_limits] answers
    true exactly when every coordinate lies between the bounds, both ends
    included; and for the box with lower=[0,0] and upper=[1,1], as a [Limit]
    and as a [Space] over ('x','y'), [inside([[0.5,0.5]])] is true,
    [inside([[1.5,0.5]])] is false and the boundary point [[1.0,1.0]] is
    inside. *)
Theorem inside_is_closed_interval_test :
  (forall x lower upper : list Q,
     length lower = length x -> length upper = length x ->
     exists b, inside_rect_limits (T2 [x]) (T2 [lower], T2 [upper]) = Ok (B1 [b]) /\
               (b = true <-> in_closed_box x lower upper)) /\
  (box ← Lim.new (Lim.LPair (T1 [0; 0]) (T1 [1; 1])) Lim.RNone None;
   Lim.inside box (T2 [[1 # 2; 1 # 2]]) false) = Ok (B1 [true]) /\
  (box ← Lim.new (Lim.LPair (T1 [0; 0]) (T1 [1; 1])) Lim.RNone None;
   Lim.inside box (T2 [[3 # 2; 1 # 2]]) false) = Ok (B1 [false]) /\
  (box ← Lim.new (Lim.LPair (T1 [0; 0]) (T1 [1; 1])) Lim.RNone None;
   Lim.inside box (T2 [[1; 1]]) false) = Ok (B1 [true]) /\
  (space ← Sp.new (Coords.ObsSeq ["x"; "y"]%string)
                  (Sp.LimArg (Lim.LPair (T1 [0; 0]) (T1 [1; 1]))) None Sp.no_rect
                  (Some "Space"%string);
   r1 ← Sp.inside space (T2 [[1 # 2; 1 # 2]]) false;
   r2 ← Sp.inside space (T2 [[3 # 2; 1 # 2]]) false;
   r3 ← Sp.inside space (T2 [[1; 1]]) false;
   Ok (r1, r2, r3)) = Ok (B1 [true], B1 [false], B1 [true]).
Proof.
  split; [|by vm_compute].
  intros x lower upper Hl Hu. eexists. split; [by apply inside_rect_limits_row|].
  rewrite andb_true_iff, !all_true_zip_with. unfold in_closed_box. split.
  - intros [Hlow Hup] i xi li ui Hx Hli Hui. split.
    + apply Qle_bool_iff. by eapply Hlow.
    + apply Qle_bool_iff. by eapply Hup.
  - intros H. split.
    + intros i xi li Hx Hli.
      destruct (lookup_lt_is_Some_2 upper i) as [ui Hui].
      { rewrite Hu. by eapply lookup_lt_Some. }
      apply Qle_bool_iff. by destruct (H i xi li ui Hx Hli Hui).
    + intros i xi ui Hx Hui.
      destruct (lookup_lt_is_Some_2 lower i) as [li Hli].
      { rewrite Hl. by eapply lookup_lt_Some. }
      apply Qle_bool_iff. by destruct (H i xi li ui Hx Hli Hui).
Qed.

(** The boundary point of the unit square, through the general statement. *)
Lemma inside_is_closed_interval_test_witness :
  exists b, inside_rect_limits (T2 [[1; 1]]) (T2 [[0; 0]], T2 [[1; 1]]) = Ok (B1 [b]) /\
            (b = true <-> in_closed_box [1; 1] [0; 0] [1; 1]).
Proof.
  exact (proj1 inside_is_closed_interval_test [1; 1] [0; 0] [1; 1] eq_refl eq_refl).
Defined.
End inside_facts.


(** ** Comparing limits whose bounds are unresolved *)

Section deferred_facts.
Import Backend Lim.

Lemma as_rows_unresolved (t : tensor) : is_concrete t = false -> as_rows t = None.
Proof. by destruct t. Qed.

(** Materialising fails as soon as one bound of the first limit is
    unresolved, and the failure is what the [except] clause catches. *)
Lemma _rect_limits_np_deferred (l : Limit) :
  deferred l -> _rect_limits_np l = Raise CannotConvertToNumpyError.
Proof.
  intros (lower & upper & Hrect & Hlower & _).
  unfold _rect_limits_np, _try_convert_numpy. by rewrite Hrect, Hlower.
Qed.

Lemma bounds_to_compare_deferred (l1 l2 : Limit) (allow_graph : bool) :
  deferred l1 ->
  bounds_to_compare l1 l2 allow_graph =
    if allow_graph
    then b1 ← unpack (rect_limits l1); b2 ← unpack (rect_limits l2); Ok (b1, b2)
    else Raise IllegalInGraphModeError.
Proof.
  intros H1. unfold bounds_to_compare.
  rewrite (_rect_limits_np_deferred l1 H1). simpl. by destruct allow_graph.
Qed.



(** The constructor builds such limits from placeholder bounds. *)
Lemma new_deferred (n : nat) :
  exists l, Lim.new (LPair (TSym "lower" n) (TSym "upper" n)) RNone None = Ok l /\ deferred l.
Proof.
  unfold Lim.new, convert_rect. simpl. rewrite Nat.eqb_refl. simpl.
  destruct (1 <? n)%nat; simpl.
  - edestruct (traverse_total
                 (fun i => Ok (mkCore FnNone
                                 (RectPair (TGather (TSym "lower" n) [i]) (TGather (TSym "upper" n) [i]))
                                 (Some 1%nat) (Some true)))
                 (seq 0 n)) as (subs & Hsubs & _); [by eauto|].
    rewrite Hsubs. eexists. split; [reflexivity|].
    by exists (TSym "lower" n), (TSym "upper" n).
  - eexists. split; [reflexivity|]. by exists (TSym "lower" n), (TSym "upper" n).
Qed.
End deferred_facts.

(** ** The ordering operator on spaces *)

Section order_facts.
Import Multi Order.

Variable compare_limits_multispace :
  zspace -> zspace -> (Lim.Limit -> Lim.Limit -> result Backend.btensor) -> result bool.

(** The call with a single positional argument cannot bind [space2]. *)
Lemma less_equal_space_one_argument (other : zspace) :
  less_equal_space compare_limits_multispace [other] = Raise TypeError.
Proof. reflexivity. Qed.

(** Whatever the two operands are, [<=] never answers. *)
Lemma le_always_raises (s1 s2 : zspace) :
  le compare_limits_multispace s1 s2 = Raise TypeError.
Proof.
  unfold le, __le__, __ge__.
  destruct (isinstance_type_of s2 s1); simpl; by rewrite ?less_equal_space_one_argument.
Qed.
End order_facts.

(** C10: for two space objects of the same type, [s1 <= s2] never returns a
    boolean: [BaseSpace.__le__] passes the type test and calls
    [less_equal_space] with [other] alone, which is a [TypeError]. *)
Theorem le_same_type_raises_TypeError
    (compare_limits_multispace :
       Multi.zspace -> Multi.zspace ->
       (Lim.Limit -> Lim.Limit -> result Backend.btensor) -> result bool)
    (s1 s2 : Multi.zspace) :
  Order.isinstance_type_of s2 s1 = true ->
  Order.__le__ compare_limits_multispace s1 s2 = Raise TypeError /\
  Order.le compare_limits_multispace s1 s2 = Raise TypeError /\
  forall b, Order.le compare_limits_multispace s1 s2 <> Ok b.
Proof.
  intros Hty. unfold Order.le, Order.__le__. rewrite Hty. simpl. by repeat split.
Qed.

(** ** Tuples as sets and as sequences *)

Section tuple_facts.
Context {A : Type} `{EqDecision A}.
Implicit Types a b old new : list A.

Lemma is_in_true (x : A) a : is_in x a = true <-> x ∈ a.
Proof. unfold is_in. apply bool_decide_eq_true. Qed.

Lemma issubset_spec a b : issubset a b = true <-> forall x, x ∈ a -> x ∈ b.
Proof.
  unfold issubset. induction a as [|x a IH]; simpl.
  - split; [|done]. intros _ y Hy. by apply elem_of_nil in Hy.
  - rewrite andb_true_iff, IH, is_in_true. split.
    + intros [Hx Ha] y Hy. apply elem_of_cons in Hy as [->|Hy]; auto.
    + intros H. split; [apply H; by left|]. intros y Hy. apply H. by right.
Qed.

Lemma frozenset_eq_refl a : frozenset_eq a a = true.
Proof.
  unfold frozenset_eq.
  assert (issubset a a = true) as ->; [|done]. by apply issubset_spec.
Qed.

Lemma filter_all (P : A -> Prop) `{forall x, Decision (P x)} a :
  (forall x, x ∈ a -> P x) -> filter P a = a.
Proof.
  induction a as [|x a IH]; intros HP; [done|].
  rewrite filter_cons_True by (apply HP; by left).
  f_equal. apply IH. intros y Hy. apply HP. by right.
Qed.

(** [index] finds an element that is present, at a position that holds it. *)
Lemma index_elem old (o : A) :
  o ∈ old -> exists i, index old o = Ok i /\ old !! i = Some o.
Proof.
  intros Hin. unfold index.
  destruct (list_find_elem_of (fun y => y = o) old o Hin eq_refl) as [[i y] Hfind].
  rewrite Hfind. apply list_find_Some in Hfind as (Hi & -> & _). eauto.
Qed.

Lemma index_NoDup old i (o : A) :
  NoDup old -> old !! i = Some o -> index old o = Ok i.
Proof.
  intros Hnd Hi.
  destruct (index_elem old o) as (j & Hj & Hlook); [by eapply list_elem_of_lookup_2|].
  rewrite Hj. f_equal. by eapply NoDup_lookup.
Qed.

(** What [pick] returns holds, position by position, the elements at the
    given indices. *)
Lemma pick_Forall2 (t : list A) idx r :
  pick t idx = Ok r -> Forall2 (fun i x => t !! i = Some x) idx r.
Proof.
  unfold pick. revert r. induction idx as [|i idx IH]; intros r; simpl.
  - intros [= <-]. constructor.
  - destruct (t !! i) eqn:Hi; simpl; [|done].
    destruct (traverse _ idx) eqn:Hp; simpl; [|done].
    intros [= <-]. constructor; auto.
Qed.

(** Reordering onto a sub-collection of the present elements succeeds, and
    picking with the indices gives back the requested order. *)
Lemma reorder_pick old new :
  (forall x, x ∈ new -> x ∈ old) ->
  exists idx, _reorder_indices old new = Ok idx /\ pick old idx = Ok new.
Proof.
  unfold _reorder_indices, pick.
  induction new as [|x new IH]; intros Hsub; simpl.
  - by exists [].
  - destruct (index_elem old x) as (i & Hi & Hl); [apply Hsub; by left|].
    destruct IH as (idx & Hidx & Hpick); [intros; apply Hsub; by right|].
    exists (i :: idx). rewrite Hi, Hidx. simpl. by rewrite Hl, Hpick.
Qed.

Lemma traverse_seq {B} (f : B -> result nat) (l : list B) (k : nat) :
  (forall i x, l !! i = Some x -> f x = Ok (k + i)) ->
  traverse f l = Ok (seq k (length l)).
Proof.
  revert k. induction l as [|x l IH]; intros k H; simpl; [done|].
  rewrite (H 0 x eq_refl), Nat.add_0_r. simpl.
  rewrite (IH (S k)); [done|].
  intros i y Hy. rewrite (H (S i) y Hy). f_equal. lia.
Qed.

(** Without repeated elements, reordering a tuple onto itself is the
    identity permutation. *)
Lemma reorder_indices_self old :
  NoDup old -> _reorder_indices old old = Ok (seq 0 (length old)).
Proof.
  intros Hnd. apply traverse_seq. intros i x Hi. by apply index_NoDup.
Qed.
End tuple_facts.

Lemma pick_seq {B} (t : list B) (k n : nat) :
  k + n <= length t -> pick t (seq k n) = Ok (take n (drop k t)).
Proof.
  unfold pick. revert k. induction n as [|n IH]; intros k Hk; simpl; [done|].
  destruct (lookup_lt_is_Some_2 t k) as [x Hx]; [lia|].
  rewrite Hx. simpl. rewrite IH by lia. simpl.
  by rewrite (drop_S t x k Hx).
Qed.

Lemma pick_identity {B} (t : list B) : pick t (seq 0 (length t)) = Ok t.
Proof. rewrite pick_seq by lia. by rewrite drop_0, firstn_all. Qed.

(** Indices that are in range for one tuple are in range for any tuple of
    the same length. *)
Lemma pick_same_length {B C} (t : list B) (u : list C) idx r :
  length t = length u -> pick t idx = Ok r ->
  exists r', pick u idx = Ok r' /\ length r' = length r.
Proof.
  intros Hlen. unfold pick. revert r.
  induction idx as [|i idx IH]; intros r; simpl.
  - intros [= <-]. by exists [].
  - destruct (t !! i) eqn:Hi; simpl; [|done].
    destruct (traverse _ idx) as [r0|] eqn:Hp; simpl; [|done].
    intros [= <-].
    destruct (lookup_lt_is_Some_2 u i) as [y Hy].
    { rewrite <- Hlen. by eapply lookup_lt_Some. }
    destruct (IH r0 eq_refl) as (r' & Hr' & Hlen').
    rewrite Hy. simpl. rewrite Hr'. simpl. exists (y :: r'). simpl. by rewrite Hlen'.
Qed.

(** Picking at distinct indices from a tuple without repetition gives a
    tuple without repetition, and conversely the indices behind a
    repetition-free result are distinct. *)
Lemma pick_NoDup {B} (t : list B) idx r :
  NoDup t -> NoDup idx -> pick t idx = Ok r -> NoDup r.
Proof.
  intros Ht Hidx Hp. apply pick_Forall2 in Hp.
  apply NoDup_alt. intros p q x Hp' Hq'.
  destruct (Forall2_lookup_r _ _ _ _ _ Hp Hp') as (i & Hi & Hti).
  destruct (Forall2_lookup_r _ _ _ _ _ Hp Hq') as (j & Hj & Htj).
  assert (i = j) as -> by exact (NoDup_lookup t i j x Ht Hti Htj).
  exact (NoDup_lookup idx p q j Hidx Hi Hj).
Qed.

Lemma pick_NoDup_indices {B} (t : list B) idx r :
  NoDup r -> pick t idx = Ok r -> NoDup idx.
Proof.
  intros Hr Hp. apply pick_Forall2 in Hp.
  apply NoDup_alt. intros p q i Hp' Hq'.
  destruct (Forall2_lookup_l _ _ _ _ _ Hp Hp') as (x & Hx & Htx).
  destruct (Forall2_lookup_l _ _ _ _ _ Hp Hq') as (y & Hy & Hty).
  assert (x = y) as -> by congruence.
  exact (NoDup_lookup r p q y Hr Hx Hy).
Qed.

(** ** Coordinates *)

Section coordinates_facts.
Import Coords.

Lemma foldl_snoc_app {B} (acc l : list B) :
  foldl (fun acc x => acc ++ [x]) acc l = acc ++ l.
Proof.
  revert acc. induction l as [|x l IH]; intros acc; simpl.
  - by rewrite app_nil_r.
  - rewrite IH. by rewrite <- app_assoc.
Qed.

Lemma extend_all_plain {B} (acc l : list B) :
  extend_all acc (map Plain l) = Ok (acc ++ l).
Proof.
  revert acc. induction l as [|x l IH]; intros acc; simpl.
  - by rewrite app_nil_r.
  - rewrite IH. by rewrite <- app_assoc.
Qed.

(** Whatever the loop returns is the concatenation of what the elements
    stand for. *)
Lemma extend_all_ids {B} (l : list (elem B)) (acc r : list B) :
  extend_all acc l = Ok r -> r = acc ++ concat (map elem_ids l).
Proof.
  revert acc. induction l as [|[a|sp] l IH]; intros acc; simpl.
  - intros [= <-]. by rewrite app_nil_r.
  - intros H. rewrite (IH _ H). by rewrite <- app_assoc.
  - destruct (elem_len sp) as [n|e]; simpl; [|done].
    destruct (1 <? n)%nat; [done|].
    destruct (elem_obs sp) as [o|]; [|done].
    intros H. rewrite (IH _ H). by rewrite <- app_assoc.
Qed.

Lemma convert_to_obs_str_seq (l : list string) : convert_to_obs_str (ObsSeq l) = Ok (Some l).
Proof. unfold convert_to_obs_str. simpl. by rewrite extend_all_plain. Qed.

Lemma convert_to_axes_id (a : option (list Z)) : convert_to_axes (plain_axes a) = Ok a.
Proof. destruct a as [l|]; [|done]. unfold convert_to_axes. simpl. by rewrite extend_all_plain. Qed.

(** The constructor on well-formed arguments. *)
Lemma new_seq (o : list string) (a : option (list Z)) :
  (forall l, a = Some l -> length o = length l) ->
  new (ObsSeq o) a = Ok (mkCoordinates (Some o) a (length o)).
Proof.
  intros Hlen. unfold new, init, _check_convert_obs_axes.
  rewrite convert_to_obs_str_seq, convert_to_axes_id. cbn [mbind result_bind].
  destruct a as [l|]; [|done].
  by rewrite (Hlen l eq_refl), Nat.eqb_refl.
Qed.

Lemma new_axes_only (a : list Z) :
  new ObsNone (Some a) = Ok (mkCoordinates None (Some a) (length a)).
Proof. unfold new, init, _check_convert_obs_axes. by rewrite convert_to_axes_id. Qed.

Lemma new_valid (c : Coordinates) : valid c -> new (opt_seq (_obs c)) (_axes c) = Ok c.
Proof.
  destruct c as [[o|] [a|] n]; unfold valid; simpl.
  - intros [-> Hlen]. rewrite new_seq; [done|]. by intros l [= <-].
  - intros ->. by rewrite new_seq.
  - intros ->. by rewrite new_axes_only.
  - done.
Qed.

(** What [with_obs] returns once its two guards have let the request pass:
    the requested names that are present, in the requested order, with the
    positions carried along. *)
Lemma with_obs_result (c : Coordinates) (self_obs o : list string) (sup sub : bool) :
  valid c -> _obs c = Some self_obs ->
  negb (frozenset_eq o self_obs) && negb sup && issuperset o self_obs = false ->
  negb (frozenset_eq o self_obs) && negb sub && issubset o self_obs = false ->
  let requested := filter (fun x => x ∈ self_obs) o in
  exists new_axes,
    with_obs c (Some o) sup sub = Ok (mkCoordinates (Some requested) new_axes (length requested)) /\
    match _axes c with
    | None => new_axes = None
    | Some a => exists idx r, pick self_obs idx = Ok requested /\ pick a idx = Ok r /\
                              new_axes = Some r
    end.
Proof.
  intros Hvalid Hobs Hsup Hsub requested.
  unfold with_obs. rewrite Hobs, Hsup, Hsub.
  unfold get_reorder_indices. rewrite Hobs. fold requested.
  destruct (reorder_pick self_obs requested) as (idx & Hidx & Hpick).
  { intros x Hx. by apply list_elem_of_filter in Hx as [? _]. }
  rewrite Hidx. simpl. unfold _reorder_obs, _reorder_axes. rewrite Hobs, Hpick. simpl.
  unfold valid in Hvalid. rewrite Hobs in Hvalid.
  destruct (_axes c) as [a|] eqn:Haxes.
  - destruct Hvalid as [_ Hlen].
    destruct (pick_same_length self_obs a idx requested Hlen Hpick) as (r & Hr & Hlenr).
    rewrite Hr. simpl. exists (Some r). split; [|by eauto].
    rewrite new_seq; [done|]. by intros l [= <-].
  - simpl. exists None. split; [|done]. by rewrite new_seq.
Qed.

Lemma with_axes_result (c : Coordinates) (self_axes a : list Z) (sup sub : bool) :
  valid c -> _axes c = Some self_axes ->
  negb (frozenset_eq a self_axes) && negb sup && issuperset a self_axes = false ->
  negb (frozenset_eq a self_axes) && negb sub && issubset a self_axes = false ->
  let requested := filter (fun x => x ∈ self_axes) a in
  exists new_obs,
    with_axes c (Some a) sup sub = Ok (mkCoordinates new_obs (Some requested) (length requested)) /\
    match _obs c with
    | None => new_obs = None
    | Some o => exists idx r, pick self_axes idx = Ok requested /\ pick o idx = Ok r /\
                              new_obs = Some r
    end.
Proof.
  intros Hvalid Haxes Hsup Hsub requested.
  unfold with_axes. rewrite Haxes, Hsup, Hsub.
  unfold get_reorder_indices. rewrite Haxes. fold requested.
  destruct (reorder_pick self_axes requested) as (idx & Hidx & Hpick).
  { intros x Hx. by apply list_elem_of_filter in Hx as [? _]. }
  unfold valid in Hvalid. rewrite Haxes in Hvalid.
  unfold _reorder_obs, _reorder_axes. rewrite Haxes.
  destruct (_obs c) as [o|] eqn:Hobs.
  - destruct Hvalid as [_ Hlen]. symmetry in Hlen.
    destruct (pick_same_length self_axes o idx requested Hlen Hpick) as (r & Hr & Hlenr).
    rewrite Hidx. simpl. rewrite Hr. simpl. rewrite Hpick. simpl.
    exists (Some r). split; [|by eauto].
    rewrite new_seq; [by rewrite Hlenr|]. intros l [= <-]. done.
  - rewrite Hidx. simpl. rewrite Hpick. simpl. exists None. split; [|done].
    by rewrite new_axes_only.
Qed.
End coordinates_facts.

Section coordinates_claims.
Import Coords.

(** C8: reordering a valid coordinate object by its own observables succeeds
    and gives a coordinate object equal to it ([__eq__]). *)
Theorem with_obs_own_obs_is_identity (c : Coordinates) (o : list string) :
  valid c -> _obs c = Some o ->
  exists c', with_obs c (Some o) false false = Ok c' /\ eq c' c = true.
Proof.
  intros Hvalid Hobs.
  destruct (with_obs_result c o o false false Hvalid Hobs) as (new_axes & Hwith & _).
  { by rewrite frozenset_eq_refl. }
  { by rewrite frozenset_eq_refl. }
  rewrite filter_all in Hwith by done.
  eexists. split; [exact Hwith|].
  unfold eq. simpl. rewrite Hobs. by rewrite frozenset_eq_refl.
Qed.

(** Names ('x','y') with positions (1,0). *)
Lemma with_obs_own_obs_is_identity_witness :
  let c := mkCoordinates (Some ["x"; "y"]%string) (Some [1; 0]%Z) 2 in
  exists c', with_obs c (Some ["x"; "y"]%string) false false = Ok c' /\ eq c' c = true.
Proof.
  intros c. apply (with_obs_own_obs_is_identity c); [by split|reflexivity].
Defined.


Lemma new_no_duplicates (obs : obs_arg) (axes : option (list Z)) (c : Coordinates) :
  arg_no_duplicates obs -> (forall a, axes = Some a -> NoDup a) ->
  new obs axes = Ok c -> no_duplicates c.
Proof.
  intros Hobs Haxes. unfold new, init, _check_convert_obs_axes.
  assert (forall o : option (list string),
            (forall l, o = Some l -> NoDup l) ->
            (match o with
             | None => match axes with
                       | None => Raise CoordinatesUnderdefinedError
                       | Some ax => Ok (o, axes, length ax)
                       end
             | Some ob =>
                 match axes with
                 | Some ax => if negb (length ob =? length ax)%nat
                              then Raise CoordinatesIncompatibleError
                              else Ok (o, axes, length ob)
                 | None => Ok (o, axes, length ob)
                 end
             end ≫= (fun '(obs, axes, n_obs) => Ok (mkCoordinates obs axes n_obs))) = Ok c ->
            no_duplicates c) as Hrest.
  { intros o Ho. destruct o as [ob|], axes as [ax|]; simpl; try done.
    - destruct (negb _); [done|]. simpl. intros [= <-].
      split; simpl; intros ? [= <-]; [by apply Ho|by apply Haxes].
    - intros [= <-]. split; simpl; [|done]. intros ? [= <-]. by apply Ho.
    - intros [= <-]. split; simpl; [done|]. intros ? [= <-]. by apply Haxes. }
  destruct obs as [|s|l|c0|l]; simpl in Hobs.
  - rewrite convert_to_axes_id. intros H. by apply (Hrest None).
  - rewrite convert_to_axes_id. intros H. apply (Hrest (Some [s])); [|exact H].
    intros ? [= <-]. apply NoDup_singleton.
  - rewrite convert_to_axes_id, convert_to_obs_str_seq. intros H.
    apply (Hrest (Some l)); [|exact H]. by intros ? [= <-].
  - destruct axes; [done|]. simpl. intros [= <-]. by destruct c0.
  - rewrite convert_to_axes_id. unfold convert_to_obs_str. simpl.
    destruct (extend_all [] l) as [r|e] eqn:Hr; [|done].
    apply extend_all_ids in Hr. simpl in Hr. subst r. intros H.
    apply (Hrest (Some (concat (map elem_ids l)))); [|exact H]. by intros ? [= <-].
Qed.

Lemma with_obs_no_duplicates (c : Coordinates) (o : option (list string)) (sup sub : bool)
    (c' : Coordinates) :
  no_duplicates c -> (forall l, o = Some l -> NoDup l) ->
  with_obs c o sup sub = Ok c' -> no_duplicates c'.
Proof.
  intros [Hnd_obs Hnd_axes] Ho.
  destruct o as [o|].
  - specialize (Ho o eq_refl). unfold with_obs.
    destruct (_obs c) as [self_obs|] eqn:Hobs; [|done].
    destruct (negb (frozenset_eq o self_obs) && negb sup && issuperset o self_obs); [done|].
    destruct (negb (frozenset_eq o self_obs) && negb sub && issubset o self_obs); [done|].
    unfold get_reorder_indices. rewrite Hobs.
    destruct (reorder_pick self_obs (filter (fun x => x ∈ self_obs) o)) as (idx & Hidx & Hpick).
    { intros x Hx. by apply list_elem_of_filter in Hx as [? _]. }
    assert (NoDup (filter (fun x => x ∈ self_obs) o)) as Hreq by (by apply NoDup_filter).
    assert (NoDup idx) as Hidx_nd by (by eapply pick_NoDup_indices).
    rewrite Hidx. cbn [mbind result_bind]. unfold _reorder_obs, _reorder_axes.
    rewrite Hobs, Hpick. cbn [fmap result_fmap mbind result_bind].
    destruct (_axes c) as [a|] eqn:Ea.
    + destruct (pick a idx) as [r|e] eqn:Hr; [|done].
      cbn [fmap result_fmap mbind result_bind]. intros Hnew.
      eapply new_no_duplicates; [| |exact Hnew]; [exact Hreq|].
      intros ? [= <-]. eapply pick_NoDup; [by apply Hnd_axes|exact Hidx_nd|exact Hr].
    + cbn [mbind result_bind]. intros Hnew.
      eapply new_no_duplicates; [| |exact Hnew]; [exact Hreq|done].
  - unfold with_obs. destruct (_axes c) as [a|] eqn:Haxes; [|done].
    intros Hnew. eapply new_no_duplicates; [| |exact Hnew]; [done|].
    intros ? [= <-]. by apply Hnd_axes.
Qed.

Lemma with_axes_no_duplicates (c : Coordinates) (a : option (list Z)) (sup sub : bool)
    (c' : Coordinates) :
  no_duplicates c -> (forall l, a = Some l -> NoDup l) ->
  with_axes c a sup sub = Ok c' -> no_duplicates c'.
Proof.
  intros [Hnd_obs Hnd_axes] Ha.
  destruct a as [a|].
  - specialize (Ha a eq_refl). unfold with_axes.
    destruct (_axes c) as [self_axes|] eqn:Haxes; [|done].
    destruct (negb (frozenset_eq a self_axes) && negb sup && issuperset a self_axes); [done|].
    destruct (negb (frozenset_eq a self_axes) && negb sub && issubset a self_axes); [done|].
    assert (exists idx, get_reorder_indices c None (Some a) = Ok idx /\
                        pick self_axes idx = Ok (filter (fun x => x ∈ self_axes) a))
      as (idx & Hidx & Hpick).
    { unfold get_reorder_indices. rewrite Haxes.
      destruct (reorder_pick self_axes (filter (fun x => x ∈ self_axes) a))
        as (idx & Hidx & Hpick).
      { intros x Hx. by apply list_elem_of_filter in Hx as [? _]. }
      exists idx. split; [|done]. by destruct (_obs c). }
    assert (NoDup (filter (fun x => x ∈ self_axes) a)) as Hreq by (by apply NoDup_filter).
    assert (NoDup idx) as Hidx_nd by (by eapply pick_NoDup_indices).
    rewrite Hidx. cbn [mbind result_bind]. unfold _reorder_obs, _reorder_axes.
    rewrite Haxes, Hpick.
    destruct (_obs c) as [o|] eqn:Eo.
    + destruct (pick o idx) as [r|e] eqn:Hr; [|done].
      cbn [fmap result_fmap mbind result_bind]. intros Hnew.
      eapply new_no_duplicates; [| |exact Hnew].
      * simpl. eapply pick_NoDup; [by apply Hnd_obs|exact Hidx_nd|exact Hr].
      * by intros ? [= <-].
    + cbn [fmap result_fmap mbind result_bind]. intros Hnew.
      eapply new_no_duplicates; [| |exact Hnew]; [done|by intros ? [= <-]].
  - unfold with_axes. destruct (_obs c) as [o|] eqn:Hobs; [|done].
    intros Hnew. eapply new_no_duplicates; [| |exact Hnew]; [|done].
    simpl. by apply Hnd_obs.
Qed.

Lemma with_autofill_axes_no_duplicates (c : Coordinates) (overwrite : bool) (c' : Coordinates) :
  no_duplicates c -> with_autofill_axes c overwrite = Ok c' -> no_duplicates c'.
Proof.
  intros [Hnd_obs Hnd_axes]. unfold with_autofill_axes.
  destruct (truthy (_axes c) && negb overwrite); [done|].
  intros Hnew. eapply new_no_duplicates; [| |exact Hnew].
  - destruct (_obs c) as [o|] eqn:Hobs; simpl; [by apply Hnd_obs|done].
  - intros ? [= <-]. apply NoDup_fmap; [apply Nat2Z.inj'|apply NoDup_seq].
Qed.



(** C4 fails on the code: with both flags off, a request that overlaps the
    present names only partly is neither rejected as a superset nor as a
    subset, and the call returns the coordinates of the overlap. *)
Theorem with_obs_partial_overlap_is_not_rejected :
  frozenset_eq ["y"; "z"]%string ["x"; "y"]%string = false /\
  (c ← new (ObsSeq ["x"; "y"]%string) None;
   with_obs c (Some ["y"; "z"]%string) false false)
  = Ok (mkCoordinates (Some ["y"]%string) None 1) /\
  (c ← new (ObsSeq ["x"]%string) None;
   with_obs c (Some ["z"]%string) false false)
  = Ok (mkCoordinates (Some []) None 0).
Proof. by vm_compute. Qed.

(** The same for every request that is neither a superset nor a subset. *)
Lemma with_obs_neither_superset_nor_subset (c : Coordinates) (self_obs o : list string) :
  valid c -> _obs c = Some self_obs ->
  issuperset o self_obs = false -> issubset o self_obs = false ->
  exists c', with_obs c (Some o) false false = Ok c' /\
             _obs c' = Some (filter (fun x => x ∈ self_obs) o).
Proof.
  intros Hvalid Hobs Hsup Hsub.
  destruct (with_obs_result c self_obs o false false Hvalid Hobs) as (new_axes & Hwith & _).
  { by rewrite Hsup, andb_false_r. }
  { by rewrite Hsub, andb_false_r. }
  eauto.
Qed.

(** What the guards do reject: a different set that is a superset or a
    subset of the present names. *)
Lemma with_obs_superset_or_subset_raises (c : Coordinates) (self_obs o : list string) :
  _obs c = Some self_obs -> frozenset_eq o self_obs = false ->
  issuperset o self_obs || issubset o self_obs = true ->
  with_obs c (Some o) false false = Raise ObsIncompatibleError.
Proof.
  intros Hobs Hne Hor. unfold with_obs. rewrite Hobs, Hne. simpl.
  destruct (issuperset o self_obs); [done|]. simpl in Hor. by rewrite Hor.
Qed.
End coordinates_claims.

(** ** Reordering onto the own coordinates, exactly *)

Section exact_reordering.
Import Coords.

Lemma new_from_coords (c : Coordinates) : new (ObsCoords c) None = Ok c.
Proof. by destruct c. Qed.

(** Without repeated names, [with_obs] onto the own names returns the very
    same coordinates, positions included. *)
Lemma with_obs_own_obs_exact (c : Coordinates) (o : list string) :
  valid c -> NoDup o -> _obs c = Some o ->
  with_obs c (Some o) false false = Ok c.
Proof.
  intros Hvalid Hnd Hobs.
  rewrite <- (new_valid c Hvalid).
  unfold with_obs. rewrite Hobs, frozenset_eq_refl. simpl.
  unfold get_reorder_indices. rewrite Hobs, filter_all by done.
  rewrite reorder_indices_self by done. simpl.
  unfold _reorder_obs, _reorder_axes. rewrite Hobs, pick_identity. simpl.
  pose proof Hvalid as Hv. unfold valid in Hv. rewrite Hobs in Hv.
  destruct (_axes c) as [a|] eqn:Haxes; [|done].
  destruct Hv as [_ Hlen]. by rewrite Hlen, pick_identity.
Qed.

Lemma with_axes_own_axes_exact (c : Coordinates) (a : list Z) :
  valid c -> NoDup a -> _axes c = Some a ->
  with_axes c (Some a) false false = Ok c.
Proof.
  intros Hvalid Hnd Haxes.
  rewrite <- (new_valid c Hvalid).
  unfold with_axes. rewrite Haxes, frozenset_eq_refl. simpl.
  unfold get_reorder_indices. rewrite Haxes.
  pose proof Hvalid as Hv. unfold valid in Hv. rewrite Haxes in Hv.
  unfold _reorder_obs, _reorder_axes. rewrite Haxes.
  rewrite filter_all by done.
  destruct (_obs c) as [o|] eqn:Hobs.
  - destruct Hv as [_ Hlen].
    rewrite reorder_indices_self by done. simpl.
    rewrite <- Hlen, pick_identity. simpl. by rewrite Hlen, pick_identity.
  - rewrite reorder_indices_self by done. simpl. by rewrite pick_identity.
Qed.
End exact_reordering.

(** The one-dimensional space over 'x' without limits, as the constructor
    builds it, compared with itself. *)
Lemma le_same_type_raises_TypeError_witness :
  let unset := Lim.own (Lim.mkCore Lim.FnNone Lim.RectNone (Some 1%nat) None) in
  let space :=
    Multi.ZSpace
      (Sp.mkSpace "Space" (Coords.mkCoordinates (Some ["x"%string]) None 1)
         (Dict.Outer true (Some [(Dict.KTuple ["x"%string], Dict.ELimit unset)]) None)) in
  let compare := fun _ _ _ => Ok true in
  Order.__le__ compare space space = Raise TypeError /\
  Order.le compare space space = Raise TypeError /\
  forall b, Order.le compare space space <> Ok b.
Proof.
  intros unset space compare.
  apply (le_same_type_raises_TypeError compare space space). reflexivity.
Defined.

(** ** Spaces: construction, copies and combination *)

Section space_facts.
Import Backend Dict Sp.
Local Open Scope Q_scope.

(** The space of C1's expected answer, built directly: its bounds are the
    concatenation of the bounds of its two sub-limits. *)
Lemma rect_limits_of_a_two_dimensional_space :
  (space ← Sp.new (Coords.ObsSeq ["x"; "y"]%string)
                  (LimArg (Lim.LPair (T1 [0; 0]) (T1 [1; 2]))) None no_rect (Some "Space"%string);
   lower ← rect_lower space;
   upper ← rect_upper space;
   Ok (obs space, lower, upper))
  = Ok (Some ["x"; "y"]%string, T2 [[0; 0]], T2 [[1; 2]]).
Proof. by vm_compute. Qed.

(** C1 fails on the code: the combination of the two one-dimensional spaces
    is a space over ('x','y'), but its limits dictionary maps the bare names
    to generator objects, so [rect_lower] and [rect_upper] raise
    [AttributeError] instead of answering [0,0] and [1,2]. *)
Theorem combine_spaces_new_stores_generators :
  exists space_x space_y combined,
    Sp.new (Coords.ObsSeq ["x"]%string) (LimArg (Lim.LPair (T1 [0]) (T1 [1])))
           None no_rect (Some "Space"%string) = Ok space_x /\
    Sp.new (Coords.ObsSeq ["y"]%string) (LimArg (Lim.LPair (T1 [0]) (T1 [2])))
           None no_rect (Some "Space"%string) = Ok space_y /\
    Combine.combine_spaces_new [space_x; space_y] = Ok combined /\
    obs combined = Some ["x"; "y"]%string /\
    _limits_dict combined =
      Outer false (Some [(KBare "x"%string, EGenerator); (KBare "y"%string, EGenerator)]) None /\
    has_rect_limits combined = Raise AttributeError /\
    rect_lower combined = Raise AttributeError /\
    rect_upper combined = Raise AttributeError.
Proof. do 3 eexists. by vm_compute. Qed.

(** Every key of the overriding dictionary is a key after [update]. *)
Lemma keys_set_kw_new (kws : kwargs) (kw : kwarg) : key_of kw ∈ keys (set_kw kws kw).
Proof.
  induction kws as [|kw' kws IH]; simpl; [by left|].
  destruct (String.eqb _ _); simpl; [by left|by right].
Qed.

Lemma keys_set_kw_old (kws : kwargs) (kw : kwarg) (k : string) :
  k ∈ keys kws -> k ∈ keys (set_kw kws kw).
Proof.
  induction kws as [|kw' kws IH]; simpl; [by intros ?%elem_of_nil|].
  intros [->|Hk]%elem_of_cons.
  - destruct (String.eqb_spec (key_of kw') (key_of kw)) as [Heq|]; simpl.
    + rewrite Heq. by left.
    + by left.
  - destruct (String.eqb _ _); simpl; right; auto.
Qed.

Lemma keys_update (base other : kwargs) (k : string) :
  k ∈ keys base \/ k ∈ keys other -> k ∈ keys (update base other).
Proof.
  unfold update. revert base.
  induction other as [|kw other IH]; intros base; simpl.
  - intros [?|?%elem_of_nil]; done.
  - intros [Hk|[->|Hk]%elem_of_cons]; apply IH.
    + left. by apply keys_set_kw_old.
    + left. by apply keys_set_kw_new.
    + by right.
Qed.

(** The [KeyError] of [copy] is unreachable: the difference is taken after
    the update, when every overriding key is a key of [kwargs]. *)
Lemma copy_KeyError_guard_is_dead (base overwrite_kwargs : kwargs) :
  set_difference (keys overwrite_kwargs) (keys (update base overwrite_kwargs)) = [].
Proof.
  unfold set_difference.
  assert (forall k, k ∈ keys overwrite_kwargs ->
                    k ∈ keys (update base overwrite_kwargs)) as Hsub.
  { intros k Hk. apply keys_update. by right. }
  revert Hsub. generalize (keys (update base overwrite_kwargs)) as ks.
  induction (keys overwrite_kwargs) as [|k l IH]; intros ks Hsub; [done|].
  rewrite filter_cons_False.
  - apply IH. intros k' Hk'. apply Hsub. by right.
  - intros Hk. apply Hk, Hsub. by left.
Qed.

(** A keyword that is no parameter of the constructor still ends in an
    error, the [TypeError] of the constructor call. *)
Lemma copy_unknown_keyword_raises (self : Space) (overwrite_kwargs : kwargs)
    (k : string) (Hk : is_parameter k = false) :
  kw_other k Hk ∈ overwrite_kwargs ->
  copy self overwrite_kwargs = Raise TypeError.
Proof.
  intros Hin. unfold copy. rewrite copy_KeyError_guard_is_dead. unfold call.
  match goal with
  | |- context [forallb is_parameter ?ks] =>
      assert (forallb is_parameter ks = false) as ->; [|done]
  end.
  apply not_true_is_false. intros Hall.
  rewrite forallb_forall in Hall.
  assert (is_parameter k = true) as Hk'; [|congruence].
  apply Hall, list_elem_of_In, keys_update. right.
  change k with (key_of (kw_other k Hk)). by apply list_elem_of_fmap_2.
Qed.

(** [rect_limits] is a parameter of the constructor, and the constructor
    ignores it when [limits] is a dictionary: the copy is the space itself. *)
Lemma copy_rect_limits_is_accepted (self : Space) (v : rect_limits_arg) :
  Coords.valid (coords self) -> copy self [kw_rect_limits v] = Ok self.
Proof.
  intros Hvalid. unfold copy. rewrite copy_KeyError_guard_is_dead.
  destruct self as [n c d]. unfold call. simpl.
  unfold Sp.new, get_obs_kw, get_axes_kw, obs, axes. simpl in *.
  by rewrite (new_valid c Hvalid).
Qed.

(** C2 fails on the code: [rect_limits] is not one of the structural
    attributes (name, limits, axes, obs), yet a copy with that override key
    raises nothing and returns a space equal to the original. *)
Theorem copy_accepts_the_rect_limits_key :
  exists space,
    Sp.new (Coords.ObsSeq ["x"]%string) (LimArg (Lim.LPair (T1 [0]) (T1 [1])))
           None no_rect (Some "Space"%string) = Ok space /\
    ("rect_limits"%string ∉ ["name"; "limits"; "axes"; "obs"]%string) /\
    copy space [kw_rect_limits (RectArg (Lim.RPair (T1 [5]) (T1 [6])))] = Ok space.
Proof.
  eexists. split; [by vm_compute|]. split; [|by vm_compute].
  intros Hin. by apply (bool_decide_pack _) in Hin.
Qed.
End space_facts.

(** ** Adding a space to itself *)

Section multispace_facts.
Import Dict Multi.
#[local] Arguments Sp.with_obs : simpl never.
#[local] Arguments Sp.with_axes : simpl never.
#[local] Arguments Sp.has_limits : simpl never.
#[local] Arguments Sp.obs : simpl never.
#[local] Arguments Sp.axes : simpl never.
#[local] Arguments Sp.rebuilt : simpl never.

Lemma space_with_obs_own_obs (A : Sp.Space) (o : list string) :
  Coords.valid (Sp.coords A) -> NoDup o -> Sp.obs A = Some o ->
  Sp.with_obs A (Some o) false false = Ok (Sp.rebuilt A).
Proof.
  intros Hvalid Hnd Hobs. unfold Sp.with_obs.
  rewrite (with_obs_own_obs_exact (Sp.coords A) o) by done. simpl.
  unfold Sp.new. by rewrite new_from_coords.
Qed.

Lemma space_with_axes_own_axes (A : Sp.Space) (a : list Z) :
  Coords.valid (Sp.coords A) -> NoDup a -> Sp.axes A = Some a ->
  Sp.with_axes A (Some a) false false = Ok (Sp.rebuilt A).
Proof.
  intros Hvalid Hnd Haxes. unfold Sp.with_axes.
  rewrite convert_to_axes_id. cbn [mbind result_bind]. cbv zeta.
  change (default [] (Some a)) with a.
  rewrite Haxes.
  rewrite (with_axes_own_axes_exact (Sp.coords A) a) by done. simpl.
  unfold Sp.new. by rewrite new_from_coords.
Qed.

Lemma has_limits_rebuilt (A : Sp.Space) : Sp.has_limits (Sp.rebuilt A) = Sp.has_limits A.
Proof. reflexivity. Qed.

(** C3 fails on the code: a space with limits that is added to itself does
    not collapse to that space.  The branch of
    [_check_convert_input_spaces_obs_axes] that should reduce common limits
    does nothing, so [add_spaces_new(A, A)] is a multi-space whose two
    alternatives are both [A]. *)
Theorem add_limited_space_to_itself_is_not_collapsed :
  exists A m,
    Sp.new (Coords.ObsSeq ["x"]%string)
           (Sp.LimArg (Lim.LPair (Backend.T1 [0%Q]) (Backend.T1 [1%Q])))
           None Sp.no_rect (Some "Space"%string) = Ok A /\
    Sp.has_limits A = Ok true /\
    add_spaces_new [ZSpace A; ZSpace A] None = Ok (ZMulti m) /\
    add_spaces_new [ZSpace A; ZSpace A] None <> Ok (ZSpace A) /\
    spaces m = [A; A].
Proof. do 2 eexists. repeat split; try by vm_compute. Qed.
End multispace_facts.

(** * Further properties of the code *)

(** ** Coordinates: construction and the validity invariant *)

Section coordinates_more.
Import Coords.

Lemma new_cases (o : list string) (a : option (list Z)) (c : Coordinates) :
  new (ObsSeq o) a =
    match a with
    | Some l => if (length o =? length l)%nat
                then Ok (mkCoordinates (Some o) (Some l) (length o))
                else Raise CoordinatesIncompatibleError
    | None => Ok (mkCoordinates (Some o) None (length o))
    end /\
  new ObsNone a =
    match a with
    | Some l => Ok (mkCoordinates None (Some l) (length l))
    | None => Raise CoordinatesUnderdefinedError
    end /\
  new (ObsCoords c) a =
    match a with
    | Some _ => Raise OverdefinedError
    | None => Ok c
    end.
Proof.
  repeat split.
  - unfold new, init, _check_convert_obs_axes.
    rewrite convert_to_obs_str_seq, convert_to_axes_id. cbn [mbind result_bind].
    destruct a as [l|]; [|done]. by destruct (length o =? length l)%nat.
  - unfold new, init, _check_convert_obs_axes. rewrite convert_to_axes_id. by destruct a.
  - destruct a; [done|]. by destruct c.
Qed.

(** Whatever the constructor is given, elements that are space objects
    included, what it returns is valid: the lengths are compared after the
    conversion. *)
Lemma init_is_valid (obs : obs_arg) (axes : option (list (elem Z))) (c : Coordinates) :
  arg_valid obs -> init obs axes = Ok c -> valid c.
Proof.
  intros Harg. unfold init, _check_convert_obs_axes.
  assert (forall (o : result (option (list string))),
            (o ≫= fun obs =>
               convert_to_axes axes ≫= fun axes =>
                 match obs with
                 | None => match axes with
                           | None => Raise CoordinatesUnderdefinedError
                           | Some ax => Ok (obs, axes, length ax)
                           end
                 | Some ob =>
                     match axes with
                     | Some ax => if negb (length ob =? length ax)%nat
                                  then Raise CoordinatesIncompatibleError
                                  else Ok (obs, axes, length ob)
                     | None => Ok (obs, axes, length ob)
                     end
                 end) ≫= (fun '(obs, axes, n_obs) => Ok (mkCoordinates obs axes n_obs)) = Ok c ->
            valid c) as Hrest.
  { intros [o|e]; [|done]. cbn [mbind result_bind].
    destruct (convert_to_axes axes) as [a|e]; [|done]. cbn [mbind result_bind].
    destruct o as [ob|], a as [ax|]; simpl; try done.
    - destruct (Nat.eqb_spec (length ob) (length ax)); [|done]. simpl.
      by intros [= <-].
    - by intros [= <-].
    - by intros [= <-]. }
  destruct obs as [|s|o|c0|l]; try exact (Hrest _).
  destruct axes; [done|]. simpl. intros [= <-]. by destruct c0.
Qed.

Lemma new_is_valid (obs : obs_arg) (axes : option (list Z)) (c : Coordinates) :
  arg_valid obs -> new obs axes = Ok c -> valid c.
Proof. apply init_is_valid. Qed.

Lemma opt_seq_arg_valid (o : option (list string)) : arg_valid (opt_seq o).
Proof. by destruct o. Qed.

(** Validity is an invariant of the class: the constructor establishes it,
    and whatever [with_obs], [with_axes] and [with_autofill_axes] return is
    valid, because each of them ends in a constructor call. *)
Theorem validity_is_invariant :
  (forall obs axes c, arg_valid obs -> new obs axes = Ok c -> valid c) /\
  (forall c o sup sub c', with_obs c o sup sub = Ok c' -> valid c') /\
  (forall c a sup sub c', with_axes c a sup sub = Ok c' -> valid c') /\
  (forall c overwrite c', with_autofill_axes c overwrite = Ok c' -> valid c').
Proof.
  split; [exact new_is_valid|]. repeat split.
  - intros c o sup sub c'. unfold with_obs.
    destruct o as [o|].
    + destruct (_obs c) as [self_obs|]; [|done].
      destruct (_ && _ && issuperset _ _); [done|].
      destruct (_ && _ && issubset _ _); [done|].
      destruct (get_reorder_indices _ _ _); simpl; [|done].
      destruct (_reorder_obs _ _) as [new_obs|]; simpl; [|done].
      destruct (_reorder_axes _ _); simpl; [|done].
      apply new_is_valid, opt_seq_arg_valid.
    + destruct (_axes c); [|done]. by apply new_is_valid.
  - intros c a sup sub c'. unfold with_axes.
    destruct a as [a|].
    + destruct (_axes c) as [self_axes|]; [|done].
      destruct (_ && _ && issuperset _ _); [done|].
      destruct (_ && _ && issubset _ _); [done|].
      destruct (get_reorder_indices _ _ _); simpl; [|done].
      destruct (_reorder_obs _ _) as [new_obs|]; simpl; [|done].
      destruct (_reorder_axes _ _); simpl; [|done].
      apply new_is_valid, opt_seq_arg_valid.
    + destruct (_obs c); [|done]. apply new_is_valid, opt_seq_arg_valid.
  - intros c overwrite c'. unfold with_autofill_axes.
    destruct (_ && _); [done|]. apply new_is_valid, opt_seq_arg_valid.
Qed.

(** The names ('x','y') with the positions (0,1) are valid coordinates. *)
Lemma validity_is_invariant_witness :
  valid (mkCoordinates (Some ["x"; "y"]%string) (Some [0; 1]%Z) 2).
Proof.
  apply (proj1 validity_is_invariant (ObsSeq ["x"; "y"]%string) (Some [0; 1]%Z)).
  - exact I.
  - reflexivity.
Defined.
End coordinates_more.

(** ** Coordinates: reordering *)

Lemma frozenset_eq_comm {A} `{EqDecision A} (a b : list A) :
  frozenset_eq a b = frozenset_eq b a.
Proof. unfold frozenset_eq. apply andb_comm. Qed.

Section reordering_more.
Import Coords.

Lemma pick_length {B} (t : list B) idx r : pick t idx = Ok r -> length r = length idx.
Proof. intros Hp. symmetry. by eapply Forall2_length, pick_Forall2. Qed.

Lemma pick_in_range {B} (t : list B) idx r :
  pick t idx = Ok r -> Forall (fun i => i < length t) idx.
Proof.
  intros Hp. apply pick_Forall2 in Hp. apply Forall_forall. intros i Hi.
  apply list_elem_of_lookup in Hi as [p Hp'].
  destruct (Forall2_lookup_l _ _ _ _ _ Hp Hp') as (x & _ & Hx).
  by eapply lookup_lt_Some.
Qed.

(** [with_obs] with [allow_superset=True], as [combine_spaces_new] calls it:
    a request that contains every present name is accepted whatever
    [allow_subset] is; the result holds the present names in the order of
    the request, the same set as before. *)
Theorem with_obs_superset_allowed (c : Coordinates) (self_obs o : list string) (sub : bool) :
  valid c -> _obs c = Some self_obs -> issuperset o self_obs = true ->
  exists c', with_obs c (Some o) true sub = Ok c' /\
             _obs c' = Some (filter (fun x => x ∈ self_obs) o) /\
             frozenset_eq (filter (fun x => x ∈ self_obs) o) self_obs = true.
Proof.
  intros Hvalid Hobs Hsup.
  destruct (with_obs_result c self_obs o true sub Hvalid Hobs) as (new_axes & Hwith & _).
  { by rewrite andb_false_r. }
  { unfold frozenset_eq. unfold issuperset in Hsup. rewrite Hsup, andb_true_r.
    destruct (issubset o self_obs); [done|]. by rewrite andb_false_r. }
  eexists. split; [exact Hwith|]. split; [done|].
  unfold frozenset_eq. apply andb_true_iff. split; apply issubset_spec.
  - intros x Hx. by apply list_elem_of_filter in Hx as [? _].
  - intros x Hx. apply list_elem_of_filter. split; [done|].
    unfold issuperset in Hsup. by eapply issubset_spec in Hsup.
Qed.

(** The names ('x') reordered onto ('y','x'). *)
Lemma with_obs_superset_allowed_witness :
  let c := mkCoordinates (Some ["x"]%string) None 1 in
  exists c', with_obs c (Some ["y"; "x"]%string) true false = Ok c' /\
             _obs c' = Some (filter (fun x => x ∈ ["x"]%string) ["y"; "x"]%string) /\
             frozenset_eq (filter (fun x => x ∈ ["x"]%string) ["y"; "x"]%string) ["x"]%string = true.
Proof.
  intros c. apply (with_obs_superset_allowed c ["x"]%string ["y"; "x"]%string false);
    reflexivity.
Defined.

(** [get_reorder_indices]: picking the present names at the returned indices
    gives the requested order (of the names that are present); and when the
    present names have no repetition and the request is a rearrangement of
    them, the indices are a rearrangement of 0, ..., n-1. *)
Theorem reorder_indices_reorder (c : Coordinates) (self_obs o : list string) :
  _obs c = Some self_obs ->
  exists idx,
    get_reorder_indices c (Some o) None = Ok idx /\
    pick self_obs idx = Ok (filter (fun x => x ∈ self_obs) o) /\
    (NoDup self_obs -> o ≡ₚ self_obs -> idx ≡ₚ seq 0 (length self_obs)).
Proof.
  intros Hobs. unfold get_reorder_indices. rewrite Hobs.
  destruct (reorder_pick self_obs (filter (fun x => x ∈ self_obs) o)) as (idx & Hidx & Hpick).
  { intros x Hx. by apply list_elem_of_filter in Hx as [? _]. }
  exists idx. split; [done|]. split; [done|].
  intros Hnd Hperm.
  rewrite filter_all in Hpick by (intros x Hx; by rewrite <- Hperm).
  assert (NoDup idx) as Hnd_idx.
  { eapply pick_NoDup_indices; [|exact Hpick]. by rewrite Hperm. }
  apply submseteq_length_Permutation.
  - apply NoDup_submseteq; [done|]. intros i Hi.
    apply elem_of_seq. split; [lia|]. simpl.
    pose proof (pick_in_range _ _ _ Hpick) as Hrange.
    rewrite Forall_forall in Hrange. by apply Hrange.
  - rewrite length_seq. apply pick_length in Hpick. rewrite <- Hpick.
    by rewrite Hperm.
Qed.

(** The names ('x','y','z') asked in the order ('z','x','y'). *)
Lemma reorder_indices_reorder_witness :
  let c := mkCoordinates (Some ["x"; "y"; "z"]%string) None 3 in
  exists idx,
    get_reorder_indices c (Some ["z"; "x"; "y"]%string) None = Ok idx /\
    pick ["x"; "y"; "z"]%string idx
      = Ok (filter (fun x => x ∈ ["x"; "y"; "z"]%string) ["z"; "x"; "y"]%string) /\
    (NoDup ["x"; "y"; "z"]%string -> ["z"; "x"; "y"]%string ≡ₚ ["x"; "y"; "z"]%string ->
     idx ≡ₚ seq 0 (length ["x"; "y"; "z"]%string)).
Proof.
  intros c. apply (reorder_indices_reorder c). reflexivity.
Defined.

(** [reorder_x] wants exactly one direction: with neither [x_obs]/[x_axes]
    nor [func_obs]/[func_axes], or with one of each pair, it raises
    [ValueError] before looking at the tensor. *)
Theorem reorder_x_wants_one_direction (c : Coordinates) (x : Backend.tensor)
    (x_obs func_obs : option (list string)) (x_axes func_axes : option (list Z)) :
  (is_Some x_obs \/ is_Some x_axes <-> is_Some func_obs \/ is_Some func_axes) ->
  reorder_x c x x_obs x_axes func_obs func_axes = Raise ValueError.
Proof.
  intros Hiff. unfold reorder_x.
  destruct x_obs, x_axes, func_obs, func_axes; try reflexivity; exfalso;
    destruct Hiff as [H1 H2];
    (assert (is_Some (@None (list string)) \/ is_Some (@None (list Z))) as [H|H]
       by (first [apply H1|apply H2]; first [left; by eexists|right; by eexists]));
    by apply is_Some_None in H.
Qed.

Lemma reorder_x_wants_one_direction_witness :
  reorder_x (mkCoordinates (Some ["x"]%string) None 1) (Backend.T2 [[0%Q]])
            (Some ["x"]%string) None (Some ["x"]%string) None = Raise ValueError.
Proof.
  apply reorder_x_wants_one_direction. split; intros _; left; eauto.
Defined.

(** [__eq__] is symmetric, but it is no equivalence: two coordinate objects
    that share the names with a third and the positions with a fourth need
    not be equal to each other. *)
Theorem eq_symmetric_not_transitive :
  (forall c1 c2, eq c1 c2 = eq c2 c1) /\
  exists c1 c2 c3,
    valid c1 /\ valid c2 /\ valid c3 /\
    eq c1 c2 = true /\ eq c2 c3 = true /\ eq c1 c3 = false.
Proof.
  split.
  - intros c1 c2. unfold eq.
    destruct (_obs c1) as [o1|], (_obs c2) as [o2|],
             (_axes c1) as [a1|], (_axes c2) as [a2|]; simpl; try done;
      by rewrite ?(frozenset_eq_comm o1 o2), ?(frozenset_eq_comm a1 a2).
  - exists (mkCoordinates (Some ["x"]%string) (Some [0%Z]) 1),
           (mkCoordinates (Some ["x"]%string) (Some [1%Z]) 1),
           (mkCoordinates (Some ["y"]%string) (Some [1%Z]) 1).
    by repeat split.
Qed.
End reordering_more.

(** ** Sentinels on the right-hand side *)

Section sentinel_more.
Import Sentinel.

(** A number, a string or [None] on the left of a sentinel: the built-in
    class answers [NotImplemented], so the sentinel's reflected method
    decides.  Everything is below [ANY_UPPER] and above [ANY_LOWER], never
    the other way round, and every relation with [ANY] holds. *)
Theorem plain_value_against_sentinel (op : cmpop) (v : value) :
  type_of v ∈ [cls_float; cls_str; cls_NoneType] ->
  richcompare op v ANY_UPPER = Ok match op with op_lt | op_le => true | _ => false end /\
  richcompare op v ANY_LOWER = Ok match op with op_ge | op_gt => true | _ => false end /\
  richcompare op v ANY = Ok true.
Proof.
  intros Hty.
  destruct v; try (by apply (bool_decide_pack _) in Hty); by destruct op.
Qed.

Lemma plain_value_against_sentinel_witness :
  richcompare op_le (VFloat 3) ANY_UPPER = Ok true /\
  richcompare op_le (VFloat 3) ANY_LOWER = Ok false /\
  richcompare op_le (VFloat 3) ANY = Ok true.
Proof.
  apply (plain_value_against_sentinel op_le (VFloat 3)). by apply (bool_decide_unpack _).
Defined.
End sentinel_more.

(** ** Limits: construction and comparison *)

Section limit_more.
Import Backend Lim.

(** A limit without bounds (unset or [False]) cannot be compared: unpacking
    its [_rect_limits] is a [TypeError], for [<=] and [==] as for
    [less_equal] and [equal], whatever [allow_graph] is. *)
Theorem comparing_a_limit_without_bounds_raises (l1 l2 : Limit) (allow_graph : bool) :
  has_limits l1 = false ->
  less_equal_limits l1 l2 allow_graph = Raise TypeError /\
  equal_limits l1 l2 allow_graph = Raise TypeError.
Proof.
  intros Hno.
  assert (bounds_to_compare l1 l2 allow_graph = Raise TypeError) as Hb.
  { unfold bounds_to_compare, _rect_limits_np.
    unfold has_limits, limits_not_set, rect_limits in Hno.
    by destruct (_rect_limits (core l1)). }
  unfold less_equal_limits, equal_limits. by rewrite Hb.
Qed.

(** Two limits whose bounds were never set. *)
Lemma comparing_a_limit_without_bounds_raises_witness :
  let unset := own (mkCore FnNone RectNone (Some 1%nat) None) in
  less_equal_limits unset unset false = Raise TypeError /\
  equal_limits unset unset false = Raise TypeError.
Proof.
  intros unset. by apply (comparing_a_limit_without_bounds_raises unset unset false).
Defined.

(** What the constructor refuses: bounds whose last dimensions differ, a
    declared [n_obs] that differs from the bounds, a function without a
    bounding box, [False] together with a box, and another limit together
    with a box. *)
Theorem limit_constructor_refuses :
  (forall lower upper r n a b,
     last_dim (_sanitize_rect_limit lower) = Ok a ->
     last_dim (_sanitize_rect_limit upper) = Ok b -> a <> b ->
     Lim.new (LPair lower upper) r n = Raise InvalidArgumentError) /\
  (forall lower upper r n a,
     last_dim (_sanitize_rect_limit lower) = Ok a ->
     last_dim (_sanitize_rect_limit upper) = Ok a -> n <> a ->
     Lim.new (LPair lower upper) r (Some n) = Raise InvalidArgumentError) /\
  (forall id call n,
     Lim.new (LCallable id call) RNone n = Raise ValueError /\
     Lim.new (LCallable id call) RFalse n = Raise ValueError) /\
  (forall lower upper n, Lim.new LFalse (RPair lower upper) n = Raise TypeError) /\
  (forall l lower upper n, Lim.new (LLimit l) (RPair lower upper) n = Raise OverdefinedError).
Proof.
  repeat split.
  - intros lower upper r n a b Ha Hb Hab. unfold Lim.new, convert_rect.
    rewrite Ha, Hb. simpl. by apply Nat.eqb_neq in Hab as ->.
  - intros lower upper r n a Ha Hb Hn. unfold Lim.new, convert_rect.
    rewrite Ha, Hb. simpl. rewrite Nat.eqb_refl. simpl.
    apply not_eq_sym in Hn. by apply Nat.eqb_neq in Hn as ->.
Qed.

(** Bounds of two and of three dimensions. *)
Lemma limit_constructor_refuses_witness :
  Lim.new (LPair (T1 [0%Q; 0%Q]) (T1 [1%Q; 1%Q; 1%Q])) RNone None = Raise InvalidArgumentError.
Proof.
  by apply (proj1 limit_constructor_refuses _ _ RNone None 2%nat 3%nat).
Defined.
End limit_more.

(** ** Copies and equality of spaces *)

Section space_more.
Import Dict Sp.

(** An override key that the constructor does not know, here 'foo'. *)
Lemma copy_unknown_keyword_raises_witness :
  let unset := Lim.own (Lim.mkCore Lim.FnNone Lim.RectNone (Some 1%nat) None) in
  let space := mkSpace "Space" (Coords.mkCoordinates (Some ["x"%string]) None 1)
                 (Outer true (Some [(KTuple ["x"%string], ELimit unset)]) None) in
  copy space [kw_other "foo" eq_refl] = Raise TypeError.
Proof.
  intros unset space.
  apply (copy_unknown_keyword_raises space [kw_other "foo" eq_refl] "foo" eq_refl).
  by left.
Defined.

(** [copy()] returns the space itself and [copy(name=n)] changes the name
    only, for every space with valid coordinates. *)
Theorem copy_keeps_what_is_not_overridden (self : Space) (n : string) :
  Coords.valid (coords self) ->
  copy self [] = Ok self /\
  copy self [kw_name (Some n)] = Ok (mkSpace n (coords self) (_limits_dict self)).
Proof.
  intros Hvalid. destruct self as [n0 c d]. unfold copy.
  rewrite !copy_KeyError_guard_is_dead. unfold call. simpl.
  unfold Sp.new, get_obs_kw, get_axes_kw, obs, axes. simpl in *.
  by rewrite (new_valid c Hvalid).
Qed.

Lemma copy_keeps_what_is_not_overridden_witness :
  let unset := Lim.own (Lim.mkCore Lim.FnNone Lim.RectNone (Some 1%nat) None) in
  let space := mkSpace "Space" (Coords.mkCoordinates (Some ["x"%string]) None 1)
                 (Outer true (Some [(KTuple ["x"%string], ELimit unset)]) None) in
  copy space [] = Ok space /\
  copy space [kw_name (Some "other"%string)]
    = Ok (mkSpace "other" (coords space) (_limits_dict space)).
Proof.
  intros unset space. by apply (copy_keeps_what_is_not_overridden space "other").
Defined.
End space_more.

(** ** Equality of spaces *)

Section equality_more.
Import Multi Order.

Variable compare_limits_multispace :
  zspace -> zspace -> (Lim.Limit -> Lim.Limit -> result Backend.btensor) -> result bool.

(** [space.equal(other, allow_graph)] never answers: like [__le__],
    [BaseSpace.equal] hands [other] alone to a function of two spaces. *)
Theorem equal_method_always_raises (self other : zspace) (allow_graph : bool) :
  Order.equal compare_limits_multispace self other allow_graph = Raise TypeError.
Proof. reflexivity. Qed.

Lemma limits_without_rect_limits (s : Sp.Space) :
  Sp.has_rect_limits s = Ok false -> limits (ZSpace s) = Ok LvFalse.
Proof. intros H. unfold limits, space_limits, Sp.rect_limits. by rewrite H. Qed.

(** [==] between two spaces that both have names: different sets of names
    make them unequal before any limit is looked at; over the same set of
    names (and no conflicting positions) two spaces without rectangular
    limits are equal, whether their limits are unset or [False]. *)
Theorem eq_of_spaces (s1 s2 : Sp.Space) (o1 o2 : list string) :
  Sp.obs s1 = Some o1 -> Sp.obs s2 = Some o2 ->
  (frozenset_eq o1 o2 = false ->
   Order.__eq__ compare_limits_multispace s1 s2 = Ok false) /\
  (frozenset_eq o1 o2 = true ->
   match Sp.axes s1, Sp.axes s2 with
   | Some a1, Some a2 => frozenset_eq a1 a2 = true
   | _, _ => True
   end ->
   Sp.has_rect_limits s1 = Ok false -> Sp.has_rect_limits s2 = Ok false ->
   Order.__eq__ compare_limits_multispace s1 s2 = Ok true).
Proof.
  intros Ho1 Ho2. unfold Order.__eq__, equal_space, compare_multispace, set_ne.
  unfold obs, axes. rewrite Ho1, Ho2. split.
  - intros ->. simpl. by destruct (Sp.axes s1), (Sp.axes s2); simpl; try destruct (negb _).
  - intros -> Hax H1 H2.
    rewrite (limits_without_rect_limits s1 H1), (limits_without_rect_limits s2 H2).
    simpl. destruct (Sp.axes s1), (Sp.axes s2); simpl; try done. by rewrite Hax.
Qed.
End equality_more.

(** A space over 'x' with unset limits and one with limits [False]. *)
Lemma eq_of_spaces_witness :
  let unset := Lim.own (Lim.mkCore Lim.FnNone Lim.RectNone (Some 1%nat) None) in
  let absent := Lim.own (Lim.mkCore Lim.FnFalse Lim.RectFalse (Some 1%nat) None) in
  let c := Coords.mkCoordinates (Some ["x"%string]) None 1 in
  let s1 := Sp.mkSpace "Space" c
              (Dict.Outer true (Some [(Dict.KTuple ["x"%string], Dict.ELimit unset)]) None) in
  let s2 := Sp.mkSpace "Space" c
              (Dict.Outer true (Some [(Dict.KTuple ["x"%string], Dict.ELimit absent)]) None) in
  Order.__eq__ (fun _ _ _ => Ok false) s1 s2 = Ok true.
Proof.
  intros unset absent c s1 s2.
  by apply (proj2 (eq_of_spaces (fun _ _ _ => Ok false) s1 s2 ["x"%string] ["x"%string]
                     eq_refl eq_refl)).
Defined.

(** ** Input sanitising and the [guarantee_limits] shortcut *)

Section sanitize_more.
Import Backend Rect.

(** For a positive [n_obs], whatever [_sanitize_x_input] lets through has
    at least two dimensions and [n_obs] as its last one.  (For [n_obs = 0]
    an empty flat array passes as it is.) *)
Theorem sanitized_input_shape (x x' : tensor) (n : nat) :
  0 < n ->
  _sanitize_x_input x (Some n) = Ok x' ->
  1 < ndims x' /\ last_dim x' = Ok n.
Proof.
  intros Hpos. unfold _sanitize_x_input, convert_to_tensor.
  destruct (negb (1 <? ndims x)%nat) eqn:Hrank.
  - destruct (1 <? n)%nat eqn:Hbig; [done|].
    destruct (n =? 1)%nat eqn:Hn.
    + destruct x as [v|vs| | | |]; simpl in *; try done.
      * apply Nat.eqb_eq in Hn as ->. simpl. intros [= <-]. simpl. split; [lia|done].
      * destruct (bool_decide _) eqn:Hd; [|done]. simpl. intros [= <-].
        apply bool_decide_eq_true in Hd as [= Hw]. simpl. split; [lia|]. by rewrite Hw.
    + simpl. destruct (last_dim x) as [d|] eqn:Hlast; simpl; [|done].
      destruct (bool_decide _) eqn:Hd; [|done]. intros [= <-].
      exfalso. apply Nat.ltb_ge in Hbig. apply Nat.eqb_neq in Hn. lia.
  - simpl. destruct (last_dim x) as [d|] eqn:Hlast; simpl; [|done].
    destruct (bool_decide _) eqn:Hd; [|done]. intros [= <-].
    apply bool_decide_eq_true in Hd as [= ->]. split; [|done].
    apply negb_false_iff, Nat.ltb_lt in Hrank. lia.
Qed.

(** A flat array of three values for a one-dimensional limit. *)
Lemma sanitized_input_shape_witness :
  1 < ndims (T2 [[1%Q]; [2%Q]; [3%Q]]) /\ last_dim (T2 [[1%Q]; [2%Q]; [3%Q]]) = Ok 1%nat.
Proof.
  apply (sanitized_input_shape (T1 [1%Q; 2%Q; 3%Q]) _ 1); [lia|reflexivity].
Defined.

(** With [guarantee_limits=True] a rectangular limit tests nothing: every
    event of the right width is reported inside, whatever the bounds are,
    and the answer has the shape of [x] itself, one entry per coordinate. *)
Theorem guarantee_limits_skips_the_test (l : Lim.Limit) (rows : list (list Q)) (n : nat) :
  Lim.n_obs l = Some n -> Lim.truth (Lim.has_rect_limits l) = true ->
  row_width rows = n ->
  Lim.inside l (T2 rows) true = Ok (broadcast_true rows).
Proof.
  intros Hn Hrect Hw. unfold Lim.inside, _sanitize_x_input. rewrite Hn. simpl.
  rewrite Hw, bool_decide_eq_true_2 by done. simpl. by rewrite Hrect.
Qed.

(** The unit interval and the point 5, which lies outside of it. *)
Lemma guarantee_limits_skips_the_test_witness :
  let l := Lim.own (Lim.mkCore Lim.FnNone (Lim.RectPair (T2 [[0%Q]]) (T2 [[1%Q]]))
                      (Some 1%nat) (Some true)) in
  Lim.inside l (T2 [[5%Q]]) true = Ok (B2 [[true]]) /\
  Lim.inside l (T2 [[5%Q]]) false = Ok (B1 [false]).
Proof.
  intros l. split; [|by vm_compute].
  by apply (guarantee_limits_skips_the_test l [[5%Q]] 1).
Defined.
End sanitize_more.

(** ** The union of two spaces *)

Section union_more.
Import Dict Multi.
#[local] Arguments Sp.with_obs : simpl never.
#[local] Arguments Sp.with_axes : simpl never.
#[local] Arguments Sp.has_limits : simpl never.
#[local] Arguments Sp.obs : simpl never.
#[local] Arguments Sp.axes : simpl never.
#[local] Arguments Sp.rebuilt : simpl never.

Lemma check_convert_two_spaces (A B : Sp.Space) (bA bB : bool) :
  Sp.coords B = Sp.coords A ->
  Coords.valid (Sp.coords A) -> Coords.no_duplicates (Sp.coords A) ->
  Sp.has_limits A = Ok bA -> Sp.has_limits B = Ok bB ->
  _check_convert_input_spaces_obs_axes [ZSpace A; ZSpace B] None None =
    if bA && bB then Ok ([Sp.rebuilt A; Sp.rebuilt B], Sp.obs A, Sp.axes A)
    else if bA || bB then Raise LimitsIncompatibleError
    else Ok ([Sp.rebuilt A], Sp.obs A, Sp.axes A).
Proof.
  intros Hc Hvalid [Hnd_obs Hnd_axes] HlimA HlimB.
  assert (Sp.obs B = Sp.obs A) as HobsB by (unfold Sp.obs; by rewrite Hc).
  assert (Sp.axes B = Sp.axes A) as HaxesB by (unfold Sp.axes; by rewrite Hc).
  assert (Coords.valid (Sp.coords B)) as HvalidB by (by rewrite Hc).
  assert (Sp.axes (Sp.rebuilt A) = Sp.axes A) as HaxesA' by reflexivity.
  assert (Sp.axes (Sp.rebuilt B) = Sp.axes A) as HaxesB' by (by rewrite <- HaxesB).
  unfold _check_convert_input_spaces_obs_axes, flatten_spaces. simpl.
  rewrite HobsB, HaxesB.
  destruct (Sp.obs A) as [o|] eqn:Hobs; destruct (Sp.axes A) as [a|] eqn:Haxes; simpl.
  - rewrite (space_with_obs_own_obs A o) by auto. simpl.
    rewrite (space_with_obs_own_obs B o) by auto. simpl.
    rewrite HaxesA', HaxesB'. rewrite !bool_decide_eq_true_2 by done. simpl.
    rewrite !has_limits_rebuilt, HlimA. simpl.
    destruct bA; simpl; rewrite HlimB; simpl; by destruct bB.
  - rewrite (space_with_obs_own_obs A o) by auto. simpl.
    rewrite (space_with_obs_own_obs B o) by auto. simpl.
    unfold Sp.with_axes. rewrite HaxesA', HaxesB'. simpl.
    rewrite !has_limits_rebuilt, HlimA. simpl.
    destruct bA; simpl; rewrite HlimB; simpl; by destruct bB.
  - rewrite (space_with_axes_own_axes A a) by auto. simpl.
    rewrite (space_with_axes_own_axes B a) by auto. simpl.
    rewrite !has_limits_rebuilt, HlimA. simpl.
    destruct bA; simpl; rewrite HlimB; simpl; by destruct bB.
  - exfalso. unfold Sp.obs in Hobs. unfold Sp.axes in Haxes. unfold Coords.valid in Hvalid.
    by rewrite Hobs, Haxes in Hvalid.
Qed.

(** [add_spaces_new] of two spaces over the same valid, repetition-free
    coordinates is decided by [has_limits] alone: when both have limits the
    result is a multi-space of both; when exactly one has limits the call
    fails with [LimitsIncompatibleError]; when neither has, the second
    space is dropped and the first alone is returned. *)
Theorem add_two_spaces_over_the_same_coordinates (A B : Sp.Space) (bA bB : bool) :
  Sp.coords B = Sp.coords A ->
  Coords.valid (Sp.coords A) -> Coords.no_duplicates (Sp.coords A) ->
  Sp.has_limits A = Ok bA -> Sp.has_limits B = Ok bB ->
  add_spaces_new [ZSpace A; ZSpace B] None =
    if bA && bB
    then Ok (ZMulti (mkMultiSpace "MultiSpace" (Sp.coords A) [Sp.rebuilt A; Sp.rebuilt B]))
    else if bA || bB then Raise LimitsIncompatibleError
    else Ok (ZSpace (Sp.rebuilt A)).
Proof.
  intros Hc Hvalid Hnd HlimA HlimB. unfold add_spaces_new, new.
  rewrite (check_convert_two_spaces A B bA bB) by done.
  destruct bA, bB; simpl; try done.
  unfold Sp.obs, Sp.axes. by rewrite (new_valid (Sp.coords A) Hvalid).
Qed.

(** The unit interval over 'x' and the space over 'x' without limits. *)
Lemma add_two_spaces_over_the_same_coordinates_witness :
  let c := Coords.mkCoordinates (Some ["x"%string]) None 1 in
  let unit := Lim.own (Lim.mkCore Lim.FnNone
                         (Lim.RectPair (Backend.T2 [[0%Q]]) (Backend.T2 [[1%Q]]))
                         (Some 1%nat) (Some true)) in
  let unset := Lim.own (Lim.mkCore Lim.FnNone Lim.RectNone (Some 1%nat) None) in
  let A := Sp.mkSpace "Space" c (Outer true (Some [(KTuple ["x"%string], ELimit unit)]) None) in
  let B := Sp.mkSpace "Space" c (Outer true (Some [(KTuple ["x"%string], ELimit unset)]) None) in
  add_spaces_new [ZSpace A; ZSpace B] None = Raise LimitsIncompatibleError.
Proof.
  intros c unit unset A B.
  refine (add_two_spaces_over_the_same_coordinates A B true false _ _ _ _ _);
    try reflexivity.
  split; simpl.
  - intros o [= <-]. by apply (bool_decide_unpack _).
  - intros a Ha. discriminate Ha.
Defined.

Lemma flatten_spaces_of_spaces (l : list Sp.Space) : flatten_spaces (map ZSpace l) = l.
Proof. unfold flatten_spaces. induction l as [|s l IH]; simpl; [done|]. by rewrite IH. Qed.

Lemma forallb_false_elem {A} (f : A -> bool) (l : list A) (a : A) :
  a ∈ l -> f a = false -> forallb f l = false.
Proof.
  intros Hin Hf. induction l as [|b l IH]; [by apply elem_of_nil in Hin|].
  apply elem_of_cons in Hin as [->|Hin]; simpl.
  - by rewrite Hf.
  - rewrite IH by done. apply andb_false_r.
Qed.

(** When one of the spaces has no names and one has no positions, no common
    coordinate scheme is left and [MultiSpace] (hence [add_spaces_new])
    fails with [SpaceIncompatibleError], whatever [obs] and [axes] are
    passed. *)
Theorem no_common_coordinate_scheme (spaces : list Sp.Space) (s1 s2 : Sp.Space)
    (obs : option (list string)) (axes : option (list Z)) (name : option string) :
  s1 ∈ spaces -> Sp.obs s1 = None ->
  s2 ∈ spaces -> Sp.axes s2 = None ->
  new (map ZSpace spaces) obs axes name = Raise SpaceIncompatibleError.
Proof.
  intros Hin1 Hobs Hin2 Haxes. unfold new, _check_convert_input_spaces_obs_axes.
  rewrite flatten_spaces_of_spaces.
  rewrite (forallb_false_elem _ spaces s1 Hin1) by (by rewrite Hobs).
  rewrite (forallb_false_elem _ spaces s2 Hin2) by (by rewrite Haxes).
  reflexivity.
Qed.

(** A space over the name 'x' and a space over the position 0. *)
Lemma no_common_coordinate_scheme_witness :
  let unset := Lim.own (Lim.mkCore Lim.FnNone Lim.RectNone (Some 1%nat) None) in
  let by_name := Sp.mkSpace "Space" (Coords.mkCoordinates (Some ["x"%string]) None 1)
                   (Outer true (Some [(KTuple ["x"%string], ELimit unset)]) None) in
  let by_position := Sp.mkSpace "Space" (Coords.mkCoordinates None (Some [0%Z]) 1)
                       (Outer true None (Some [(KTuple [0%Z], ELimit unset)])) in
  add_spaces_new [ZSpace by_name; ZSpace by_position] None = Raise SpaceIncompatibleError.
Proof.
  intros unset by_name by_position.
  apply (no_common_coordinate_scheme [by_name; by_position] by_position by_name).
  - right. left.
  - reflexivity.
  - left.
  - reflexivity.
Defined.
End union_more.

(** ** Decomposition of a box and its recomposition by a space *)

Section decomposition.
Import Backend Lim.
#[local] Arguments gather : simpl never.

Lemma gather_one_row (r : list Q) (i : nat) (x : Q) :
  r !! i = Some x -> gather (T2 [r]) [i] = Ok (T2 [[x]]).
Proof. intros Hi. unfold gather, gather_row. cbn. by rewrite Hi. Qed.

Lemma sub_cores_of_row (lo up : list Q) (k m : nat) :
  k + m <= length lo -> length up = length lo ->
  traverse (fun i =>
              low ← gather (T2 [lo]) [i];
              up' ← gather (T2 [up]) [i];
              Ok (mkCore FnNone (RectPair low up') (Some 1%nat) (Some true)))
           (seq k m)
  = Ok (zip_with sub_core (take m (drop k lo)) (take m (drop k up))).
Proof.
  intros Hk Hlen. revert k Hk. induction m as [|m IH]; intros k Hk; simpl; [done|].
  destruct (lookup_lt_is_Some_2 lo k) as [x Hx]; [lia|].
  destruct (lookup_lt_is_Some_2 up k) as [y Hy]; [lia|].
  rewrite (gather_one_row lo k x Hx), (gather_one_row up k y Hy). simpl.
  rewrite IH by lia. simpl.
  by rewrite (drop_S lo x k Hx), (drop_S up y k Hy).
Qed.

Lemma new_box (lo up : list Q) (n_obs : option nat) :
  length up = length lo -> (forall n, n_obs = Some n -> n = length lo) ->
  Lim.new (LPair (T1 lo) (T1 up)) RNone n_obs = Ok (box_limit lo up).
Proof.
  intros Hlen Hn. unfold Lim.new, convert_rect, box_limit. simpl.
  rewrite Hlen, Nat.eqb_refl. simpl.
  assert (match n_obs with
          | Some n => negb (length lo =? n)%nat
          | None => false
          end = false) as ->.
  { destruct n_obs as [n|]; [|done]. by rewrite (Hn n eq_refl), Nat.eqb_refl. }
  destruct (1 <? length lo)%nat eqn:Hbig; [|done].
  rewrite (sub_cores_of_row lo up 0 (length lo)) by (lia || done). simpl.
  rewrite !drop_0, firstn_all. by rewrite <- Hlen, firstn_all, Hlen.
Qed.

Lemma iter_box (lo up : list Q) :
  length up = length lo -> lo <> [] ->
  iter (box_limit lo up) = map own (zip_with sub_core lo up).
Proof.
  intros Hlen Hne. unfold iter, box_limit. simpl.
  destruct (1 <? length lo)%nat eqn:Hbig; [done|].
  apply Nat.ltb_ge in Hbig.
  destruct lo as [|x [|x' lo]]; simpl in *; [done| |lia].
  by destruct up as [|y [|y' up]].
Qed.

(** A box given by flat lower and upper bounds of the same positive length
    becomes a rectangular limit over that many dimensions whose bounds are
    the two rows, and iterating over it yields one single-dimension limit
    per dimension, in order, each between the two bounds of its dimension. *)
Theorem box_decomposes_into_sub_limits (lo up : list Q) :
  length up = length lo -> lo <> [] ->
  exists l,
    Lim.new (LPair (T1 lo) (T1 up)) RNone None = Ok l /\
    Lim.n_obs l = Some (length lo) /\
    Lim.rect_limits l = RectPair (T2 [lo]) (T2 [up]) /\
    Lim.has_rect_limits l = Some true /\
    iter l = map own (zip_with sub_core lo up).
Proof.
  intros Hlen Hne. exists (box_limit lo up).
  split; [by apply new_box|]. repeat split. by apply iter_box.
Qed.

(** The unit square. *)
Lemma box_decomposes_into_sub_limits_witness :
  exists l,
    Lim.new (LPair (T1 [0%Q; 0%Q]) (T1 [1%Q; 1%Q])) RNone None = Ok l /\
    Lim.n_obs l = Some 2%nat /\
    Lim.rect_limits l = RectPair (T2 [[0%Q; 0%Q]]) (T2 [[1%Q; 1%Q]]) /\
    Lim.has_rect_limits l = Some true /\
    iter l = map own (zip_with sub_core [0%Q; 0%Q] [1%Q; 1%Q]).
Proof.
  by apply (box_decomposes_into_sub_limits [0%Q; 0%Q] [1%Q; 1%Q]).
Defined.
End decomposition.

Section space_round_trip.
Import Backend Dict.

Lemma setitem_fresh {A} `{EqDecision A} (d : inner A) (k : key A) (v : entry) :
  k ∉ d.*1 -> setitem d k v = d ++ [(k, v)].
Proof.
  induction d as [|[k' v'] d IH]; simpl; intros Hk; [done|].
  apply not_elem_of_cons in Hk as [Hne Hk].
  rewrite decide_False by (intros ->; done). by rewrite IH.
Qed.

Lemma distribute_singletons (pre names : list string) (cs : list Lim.Core)
    (od : option (inner string)) :
  length cs = length names -> Forall (fun c => Lim._n_obs c = Some 1%nat) cs ->
  (forall o, o ∈ names -> KTuple [o] ∉ (default [] od).*1) -> NoDup names ->
  Sp.distribute (map Lim.own cs) (Some (pre ++ names)) None (length pre) od None
  = Ok (match cs with
        | [] => od
        | _ => Some (default [] od
                     ++ zip_with (fun o c => (KTuple [o], ELimit (Lim.own c))) names cs)
        end, None).
Proof.
  revert pre names od.
  induction cs as [|c cs IH]; intros pre names od Hlen Hone Hfresh Hnd; [done|].
  destruct names as [|o names]; [done|].
  apply Forall_cons in Hone as [Hc Hone]. apply NoDup_cons in Hnd as [Ho Hnd].
  injection Hlen as Hlen.
  cbn [map Sp.distribute]. unfold Lim.n_obs. cbn [Lim.own Lim.core]. rewrite Hc.
  assert (Sp.slice (pre ++ o :: names) (length pre) (length pre + 1) = [o]) as ->.
  { unfold Sp.slice. rewrite drop_app_length.
    by replace (length pre + 1 - length pre) with 1 by lia. }
  rewrite setitem_fresh by (apply Hfresh; by left).
  replace (length pre + 1) with (length (pre ++ [o])) by (rewrite length_app; simpl; lia).
  replace (pre ++ o :: names) with ((pre ++ [o]) ++ names) by (by rewrite <- app_assoc).
  rewrite IH; try done.
  - cbn [default id]. destruct cs; [by destruct names|]. by rewrite <- app_assoc.
  - cbn [default id]. intros o' Ho'. rewrite fmap_app. apply not_elem_of_app. split.
    + apply Hfresh. by right.
    + simpl. intros [= ->]%list_elem_of_singleton. done.
Qed.

Lemma collect_obs_singletons (names : list string) (lo up : list Q) :
  length lo = length names -> length up = length names ->
  Sp.collect_obs (singleton_entries names lo up)
  = Ok (names, map (fun x => T2 [[x]]) lo, map (fun y => T2 [[y]]) up).
Proof.
  unfold singleton_entries. revert lo up.
  induction names as [|o names IH]; intros [|x lo] [|y up] Hlo Hup; try done.
  injection Hlo as Hlo. injection Hup as Hup.
  cbn [zip_with Sp.collect_obs]. rewrite IH by done. reflexivity.
Qed.

Lemma concat_columns (lo : list Q) :
  lo <> [] -> concat (map (fun x => T2 [[x]]) lo) = Ok (T2 [lo]).
Proof.
  intros Hne. unfold concat.
  assert (forallb is_concrete (map (fun x => T2 [[x]]) lo) = true) as ->.
  { clear Hne. induction lo as [|x lo IH]; [done|]. exact IH. }
  assert (mapM as_rows2 (map (fun x => T2 [[x]]) lo) = Some (map (fun x => [[x]]) lo)) as ->.
  { clear Hne. induction lo as [|x lo IH]; [done|]. cbn. cbn in IH. by rewrite IH. }
  assert (concat_rows (map (fun x => [[x]]) lo) = Ok [lo]) as ->; [|done].
  induction lo as [|x [|x' lo] IH]; [done|done|].
  change (concat_rows (map (fun x => [[x]]) (x :: x' :: lo)))
    with (rest ← concat_rows (map (fun x => [[x]]) (x' :: lo));
          if (length [[x]] =? length rest)%nat then Ok (zip_with app [[x]] rest)
          else Raise ValueError).
  by rewrite IH.
Qed.

Lemma values_of_singletons_are_rectangular (names : list string) (lo up : list Q) :
  names <> [] -> length lo = length names -> length up = length names ->
  Sp.values_have_rect_limits (singleton_entries names lo up) = Ok true.
Proof.
  intros Hne Hlo Hup. unfold Sp.values_have_rect_limits.
  assert (traverse (fun kv : key string * entry => Sp.entry_has_rect_limits kv.2)
                   (singleton_entries names lo up)
          = Ok (map (fun _ => true) (singleton_entries names lo up))) as ->.
  { unfold singleton_entries. clear Hne. revert lo up Hlo Hup.
    induction names as [|o names IH]; intros [|x lo] [|y up] Hlo Hup; try done.
    injection Hlo as Hlo. injection Hup as Hup.
    cbn [zip_with traverse]. rewrite IH by done. reflexivity. }
  simpl. destruct names as [|o names]; [done|].
  destruct lo as [|x lo]; [done|]. destruct up as [|y up]; [done|].
  unfold singleton_entries. cbn [zip_with map length]. simpl.
  apply f_equal. clear.
  generalize (zip_with (fun o c => (KTuple [o], ELimit (Lim.own c))) names
                (zip_with Lim.sub_core lo up)).
  intros l. unfold all_true. by induction l.
Qed.

Lemma gather_row_is_pick {B} (idx : list nat) (r : list B) : gather_row idx r = pick r idx.
Proof. reflexivity. Qed.

Lemma reorder_x_onto_own_names (c : Coords.Coordinates) (names : list string) (row : list Q) :
  Coords._obs c = Some names -> names <> [] -> NoDup names -> length row = length names ->
  Coords.reorder_x c (T2 [row]) (Some names) None None None = Ok (T2 [row]).
Proof.
  intros Hobs Hne Hnd Hlen. unfold Coords.reorder_x.
  rewrite !bool_decide_eq_true_2 by done.
  rewrite !bool_decide_eq_false_2 by (intros H; by apply H).
  cbn [orb xorb negb andb]. rewrite Hobs.
  assert (Coords.truthy (Some names) = true) as -> by (by destruct names).
  rewrite reorder_indices_self by done. cbn [mbind result_bind].
  unfold gather. cbn [traverse]. rewrite gather_row_is_pick, <- Hlen, pick_identity.
  reflexivity.
Qed.

Lemma new_box_space (names : list string) (lo up : list Q) (name : option string) :
  NoDup names -> names <> [] -> length lo = length names -> length up = length names ->
  Sp.new (Coords.ObsSeq names) (Sp.LimArg (Lim.LPair (T1 lo) (T1 up))) None Sp.no_rect name
  = Ok (box_space names lo up name).
Proof.
  intros Hnd Hne Hlo Hup.
  assert (lo <> []) as Hlo_ne by (intros ->; by destruct names).
  unfold Sp.new. rewrite new_seq by done. cbn [mbind result_bind].
  unfold Sp._check_convert_input_limits. cbn [Coords._obs Coords._axes Coords._n_obs].
  unfold Sp.no_rect.
  rewrite (new_box lo up (Some (length names)))
    by (congruence || (intros n [= <-]; congruence)).
  cbn [mbind result_bind]. rewrite iter_box by (congruence || done).
  pose proof (distribute_singletons [] names (zip_with Lim.sub_core lo up) None) as Hd.
  cbn [app length default] in Hd. rewrite Hd; try done.
  - clear Hd. unfold box_space, singleton_entries.
    destruct lo as [|x lo]; [done|].
    destruct up as [|y up]; [simpl in *; congruence|]. reflexivity.
  - rewrite length_zip_with. lia.
  - clear. revert up. induction lo as [|x lo IH]; intros [|y up]; simpl; try done.
    constructor; [done|apply IH].
  - intros o _. by intros ?%elem_of_nil.
Qed.

Lemma box_space_has_rect_limits (names : list string) (lo up : list Q) (name : option string) :
  names <> [] -> length lo = length names -> length up = length names ->
  Sp.has_rect_limits (box_space names lo up name) = Ok true.
Proof.
  intros Hne Hlo Hup. unfold Sp.has_rect_limits. cbn.
  destruct (singleton_entries names lo up) eqn:Hents.
  - exfalso. unfold singleton_entries in Hents. destruct names, lo, up; done.
  - rewrite <- Hents. by apply values_of_singletons_are_rectangular.
Qed.

(** A space built over repetition-free names from flat lower and upper
    bounds of the same length stores one sub-limit per name, has limits,
    and [rect_limits] puts the bounds together again: [rect_lower] and
    [rect_upper] are the rows the space was built from. *)
Theorem space_gives_back_its_bounds (names : list string) (lo up : list Q)
    (name : option string) :
  NoDup names -> names <> [] -> length lo = length names -> length up = length names ->
  exists s,
    Sp.new (Coords.ObsSeq names) (Sp.LimArg (Lim.LPair (T1 lo) (T1 up))) None Sp.no_rect name
      = Ok s /\
    Sp.obs s = Some names /\
    Sp._limits_dict s = Outer true (Some (singleton_entries names lo up)) None /\
    Sp.has_limits s = Ok true /\
    Sp.rect_lower s = Ok (T2 [lo]) /\
    Sp.rect_upper s = Ok (T2 [up]).
Proof.
  intros Hnd Hne Hlo Hup.
  assert (lo <> []) as Hlo_ne by (intros ->; by destruct names).
  assert (up <> []) as Hup_ne by (intros ->; by destruct names).
  pose proof (box_space_has_rect_limits names lo up name Hne Hlo Hup) as Hrect.
  assert (Sp._rect_limits_z (box_space names lo up name) = Ok (T2 [lo], T2 [up])) as Hz.
  { unfold Sp._rect_limits_z, box_space. cbn [Sp.obs Sp.coords Coords._obs].
    cbn [Sp._limits_dict getitem_obs mbind result_bind].
    rewrite collect_obs_singletons by done. cbn [mbind result_bind].
    rewrite !concat_columns by done. cbn [mbind result_bind].
    unfold Sp.reorder_x. cbn [Sp.coords].
    rewrite !(reorder_x_onto_own_names _ names) by done. reflexivity. }
  exists (box_space names lo up name).
  split; [by apply new_box_space|]. split; [done|]. split; [done|]. split; [|split].
  - unfold Sp.has_limits, Sp.limits_not_set. cbn. exact Hrect.
  - unfold Sp.rect_lower, Sp.rect_limits. by rewrite Hrect, Hz.
  - unfold Sp.rect_upper, Sp.rect_limits. by rewrite Hrect, Hz.
Qed.

(** Names ('x','y','z') with three different intervals. *)
Lemma space_gives_back_its_bounds_witness :
  exists s,
    Sp.new (Coords.ObsSeq ["x"; "y"; "z"]%string)
           (Sp.LimArg (Lim.LPair (T1 [0%Q; 1%Q; 2%Q]) (T1 [3%Q; 4%Q; 5%Q]))) None Sp.no_rect
           (Some "Space"%string) = Ok s /\
    Sp.obs s = Some ["x"; "y"; "z"]%string /\
    Sp._limits_dict s
      = Outer true (Some (singleton_entries ["x"; "y"; "z"]%string
                            [0%Q; 1%Q; 2%Q] [3%Q; 4%Q; 5%Q])) None /\
    Sp.has_limits s = Ok true /\
    Sp.rect_lower s = Ok (T2 [[0%Q; 1%Q; 2%Q]]) /\
    Sp.rect_upper s = Ok (T2 [[3%Q; 4%Q; 5%Q]]).
Proof.
  apply (space_gives_back_its_bounds ["x"; "y"; "z"]%string); try done.
  by apply (bool_decide_unpack _).
Defined.
End space_round_trip.

Section unset_limits.
Import Dict.

(** A space that the constructor builds without limits never reports
    [limits_not_set]: the one limit object without bounds is stored under the
    whole tuple of names (and of positions), so the dictionary is not empty.
    Whether the limits were [None] or [False], the space says that its limits
    are set, that it has no limits, that its limits are false, and its
    [rect_limits] is [False]. *)
Theorem space_built_without_limits (o : Coords.obs_arg) (ax : option (list Z))
    (l : Lim.limit_arg) (r : Lim.rect_arg) (name : option string) (c : Coords.Coordinates) :
  Coords.arg_valid o -> Coords.new o ax = Ok c -> absent l r = true ->
  exists s,
    Sp.new o (Sp.LimArg l) ax (Sp.RectArg r) name = Ok s /\
    Sp.coords s = c /\
    Sp.limits_not_set s = false /\
    Sp.limits_are_set s = true /\
    Sp.has_limits s = Ok false /\
    Sp.limits_are_false s = Ok true /\
    Sp.rect_limits s = Ok None.
Proof.
  intros Harg Hnew Habs.
  pose proof (new_is_valid o ax c Harg Hnew) as Hvalid.
  unfold Sp.new. rewrite Hnew. cbn [mbind result_bind].
  destruct c as [[names|] [axes|] n]; try done;
    destruct l; try done; destruct r; try done;
    (eexists; split; [reflexivity|]); by repeat split.
Qed.

(** Names ('x','y') with limits None. *)
Lemma space_built_without_limits_witness :
  exists s,
    Sp.new (Coords.ObsSeq ["x"; "y"]%string) (Sp.LimArg Lim.LNone) None (Sp.RectArg Lim.RNone)
           None = Ok s /\
    Sp.coords s = Coords.mkCoordinates (Some ["x"; "y"]%string) None 2 /\
    Sp.limits_not_set s = false /\
    Sp.limits_are_set s = true /\
    Sp.has_limits s = Ok false /\
    Sp.limits_are_false s = Ok true /\
    Sp.rect_limits s = Ok None.
Proof.
  apply (space_built_without_limits (Coords.ObsSeq ["x"; "y"]%string) None
           Lim.LNone Lim.RNone None); reflexivity.
Defined.
End unset_limits.

Section autofill.
Import Dict.
#[local] Arguments Coords.new : simpl never.
#[local] Arguments Sp.new : simpl never.

Lemma reorder_x_by_names (c c' : Coords.Coordinates) (x : Backend.tensor) (l : list string) :
  Coords._obs c = Coords._obs c' ->
  Coords.reorder_x c x (Some l) None None None = Coords.reorder_x c' x (Some l) None None None.
Proof.
  intros H. unfold Coords.reorder_x. rewrite H.
  rewrite !(bool_decide_eq_false_2 (None ≠ None)) by (intros H'; by apply H').
  cbn [orb andb]. by destruct (Coords.truthy (Coords._obs c')).
Qed.

Lemma rect_limits_by_names (s s' : Sp.Space) :
  Sp.obs s <> None -> Sp.obs s' = Sp.obs s -> Sp._limits_dict s' = Sp._limits_dict s ->
  Sp.has_limits s' = Sp.has_limits s /\ Sp.rect_limits s' = Sp.rect_limits s.
Proof.
  intros Hsome Hobs Hdict.
  assert (Coords._obs (Sp.coords s') = Coords._obs (Sp.coords s)) as Hc by exact Hobs.
  assert (Sp.has_rect_limits s' = Sp.has_rect_limits s) as Hrect.
  { unfold Sp.has_rect_limits. by rewrite Hobs, Hdict. }
  split.
  - unfold Sp.has_limits, Sp.limits_not_set. by rewrite Hdict, Hrect.
  - unfold Sp.rect_limits. rewrite Hrect.
    assert (Sp._rect_limits_z s' = Sp._rect_limits_z s) as ->; [|done].
    unfold Sp._rect_limits_z. rewrite Hobs, Hdict.
    destruct (Sp.obs s) as [names|] eqn:Hnames; [|done].
    destruct (getitem_obs (Sp._limits_dict s)) as [d|e]; [|reflexivity].
    cbn [mbind result_bind].
    destruct (Sp.collect_obs d) as [[[lo lows] ups]|e]; [|reflexivity].
    cbn [mbind result_bind]. unfold Sp.reorder_x.
    destruct (Backend.concat lows) as [low|e]; [|reflexivity]. cbn [mbind result_bind].
    rewrite (reorder_x_by_names (Sp.coords s') (Sp.coords s)) by exact Hc.
    destruct (Coords.reorder_x (Sp.coords s) low (Some lo) None None None); [|reflexivity].
    cbn [mbind result_bind].
    destruct (Backend.concat ups) as [up|e]; [|reflexivity]. cbn [mbind result_bind].
    by rewrite (reorder_x_by_names (Sp.coords s') (Sp.coords s)) by exact Hc.
Qed.

(** [with_autofill_axes] on a space with valid coordinates always succeeds.
    It keeps the name, the names of the dimensions and the limits
    dictionary as they are; the positions become 0, 1, ..., n_obs - 1 when
    the space had none or when [overwrite] is set, and the space itself is
    returned otherwise.  The limits are not re-keyed: on a space with names
    [has_limits] and [rect_limits] answer as before, and on a space with
    positions only the dictionary still holds the old positions as keys. *)
Theorem autofill_axes_keeps_the_limits (s : Sp.Space) (overwrite : bool) :
  Coords.valid (Sp.coords s) ->
  exists s',
    Sp.with_autofill_axes s overwrite = Ok s' /\
    Sp.name s' = Sp.name s /\
    Sp.obs s' = Sp.obs s /\
    Sp.n_obs s' = Sp.n_obs s /\
    Sp.axes s' = (if bool_decide (Sp.axes s = None) || overwrite
                  then Some (map Z.of_nat (seq 0 (Sp.n_obs s))) else Sp.axes s) /\
    Sp._limits_dict s' = Sp._limits_dict s /\
    (Sp.obs s <> None ->
     Sp.has_limits s' = Sp.has_limits s /\ Sp.rect_limits s' = Sp.rect_limits s).
Proof.
  intros Hvalid. unfold Sp.with_autofill_axes.
  destruct (bool_decide (Sp.axes s = None) || overwrite) eqn:Hfill.
  - destruct s as [nm [o a n] d]. unfold Coords.valid in Hvalid. cbn in Hvalid.
    assert (exists c', Coords.new (Coords.opt_seq o) (Some (map Z.of_nat (seq 0 n))) = Ok c' /\
                       Coords._obs c' = o /\ Coords._n_obs c' = n /\
                       Coords._axes c' = Some (map Z.of_nat (seq 0 n))) as (c' & Hc' & Ho & Hn & Ha).
    { exists (Coords.mkCoordinates o (Some (map Z.of_nat (seq 0 n))) n).
      split; [|done].
      destruct o as [names|].
      - assert (n = length names) as -> by (destruct a; [tauto|done]).
        simpl. rewrite new_seq; [done|].
        intros l [= <-]. by rewrite length_map, length_seq.
      - destruct a as [axes|]; [|done].
        simpl. rewrite new_axes_only. by rewrite length_map, length_seq. }
    exists (Sp.mkSpace nm c' d).
    split; [|split; [done|split; [done|split; [done|split; [done|split; [done|]]]]]].
    + unfold Sp.copy, Sp.call. cbn. unfold Sp.new. cbn. by rewrite Hc'.
    + intros Hsome. by apply rect_limits_by_names.
  - exists s. by repeat split.
Qed.

(** Names ('x','y') with the unit square as limits and no positions. *)
Lemma autofill_axes_keeps_the_limits_witness :
  let s := Sp.mkSpace "Space"%string
             (Coords.mkCoordinates (Some ["x"; "y"]%string) None 2)
             (Outer true (Some (singleton_entries ["x"; "y"]%string [0%Q; 0%Q] [1%Q; 1%Q])) None) in
  exists s',
    Sp.with_autofill_axes s false = Ok s' /\
    Sp.name s' = Sp.name s /\
    Sp.obs s' = Sp.obs s /\
    Sp.n_obs s' = Sp.n_obs s /\
    Sp.axes s' = (if bool_decide (Sp.axes s = None) || false
                  then Some (map Z.of_nat (seq 0 (Sp.n_obs s))) else Sp.axes s) /\
    Sp._limits_dict s' = Sp._limits_dict s /\
    (Sp.obs s <> None ->
     Sp.has_limits s' = Sp.has_limits s /\ Sp.rect_limits s' = Sp.rect_limits s).
Proof.
  intros s. apply (autofill_axes_keeps_the_limits s false). reflexivity.
Defined.
End autofill.

Section space_inside.
Import Backend Rect Dict.
Local Open Scope Q_scope.

Lemma coordinate_tests_spec (x lo up : list Q) :
  length lo = length x -> length up = length x ->
  all_true (coordinate_tests x lo up) = true <-> in_closed_box x lo up.
Proof.
  intros Hlo Hup. unfold coordinate_tests, in_closed_box.
  rewrite all_true_zip_with. split.
  - intros H i xi li ui Hx Hl Hu.
    assert (Qle_bool li xi && Qle_bool xi ui = true) as [H1 H2]%andb_true_iff.
    { apply (H i xi (li, ui) Hx). apply lookup_zip_with_Some. by exists li, ui. }
    split; by apply Qle_bool_iff.
  - intros H i xi [li ui] Hx Hz.
    apply lookup_zip_with_Some in Hz as (l & u & [= -> ->] & Hl & Hu).
    simpl. rewrite andb_true_iff, !Qle_bool_iff. by eapply H.
Qed.

Lemma inside_sub_limit (xi l u : Q) :
  Lim.inside (Lim.own (Lim.sub_core l u)) (T2 [[xi]]) false
  = Ok (B1 [Qle_bool l xi && Qle_bool xi u]).
Proof.
  unfold Lim.inside, Lim._inside. cbn -[inside_rect_limits].
  rewrite bool_decide_eq_true_2 by done. unfold convert_to_tensor.
  cbn [negb mbind result_bind].
  rewrite (inside_rect_limits_row [xi] [l] [u]) by done.
  cbn. by rewrite !andb_true_r.
Qed.

Lemma reorder_x_one_name (c : Coords.Coordinates) (names : list string) (o : string)
    (i : nat) (x : list Q) (xi : Q) :
  Coords._obs c = Some names -> NoDup names -> names !! i = Some o -> x !! i = Some xi ->
  Coords.reorder_x c (T2 [x]) None None (Some [o]) None = Ok (T2 [[xi]]).
Proof.
  intros Hobs Hnd Ho Hx. unfold Coords.reorder_x.
  rewrite !(bool_decide_eq_false_2 (None ≠ None)) by (intros H; by apply H).
  rewrite !bool_decide_eq_true_2 by done.
  cbn [orb xorb negb andb]. rewrite Hobs.
  assert (Coords.truthy (Some names) = true) as -> by (by destruct names).
  unfold _reorder_indices. cbn [traverse]. rewrite (index_NoDup names i o) by done.
  cbn [mbind result_bind]. by apply gather_one_row.
Qed.

Lemma space_reorder_x_one_name (s : Sp.Space) (names : list string) (o : string)
    (i : nat) (x : list Q) (xi : Q) :
  Sp.obs s = Some names -> NoDup names -> names !! i = Some o -> x !! i = Some xi ->
  Sp.reorder_x s (T2 [x]) None None (Some [o]) None = Ok (T2 [[xi]]).
Proof. apply reorder_x_one_name. Qed.

Lemma inside_singleton_entries (s : Sp.Space) (pre names : list string)
    (xpre x lo up : list Q) :
  Sp.obs s = Some (pre ++ names) -> NoDup (pre ++ names) ->
  length xpre = length pre -> length x = length names ->
  length lo = length names -> length up = length names ->
  traverse (fun '(k, limit) =>
              let coords := match k with KTuple cs => cs | KBare c => Sp.chars c end in
              x_sub ← Sp.reorder_x s (T2 [xpre ++ x]) None None (Some coords) None;
              Sp.entry_inside limit x_sub)
           (singleton_entries names lo up)
  = Ok (map (fun b => B1 [b]) (coordinate_tests x lo up)).
Proof.
  revert pre xpre x lo up.
  induction names as [|o names IH]; intros pre xpre [|xi x] [|l lo] [|u up];
    intros Hobs Hnd Hxpre Hx Hlo Hup; try done.
  injection Hx as Hx. injection Hlo as Hlo. injection Hup as Hup.
  unfold singleton_entries, coordinate_tests. cbn [zip_with zip traverse map].
  rewrite (space_reorder_x_one_name s (pre ++ o :: names) o (length pre) _ xi);
    [|done|done|by apply list_lookup_middle|by apply list_lookup_middle].
  cbn [mbind result_bind Sp.entry_inside]. rewrite inside_sub_limit.
  cbn [mbind result_bind].
  replace (xpre ++ xi :: x) with ((xpre ++ [xi]) ++ x) by (by rewrite <- app_assoc).
  fold (singleton_entries names lo up).
  rewrite (IH (pre ++ [o])); try done.
  - by rewrite <- app_assoc.
  - by rewrite <- app_assoc.
  - rewrite !length_app. simpl. lia.
Qed.

Lemma reduce_all_of_single_events (bs : list bool) :
  bs <> [] -> reduce_all_stack (map (fun b => B1 [b]) bs) = Ok (B1 [all_true bs]).
Proof.
  intros Hne. unfold reduce_all_stack.
  assert (forallb is_resolved (map (fun b => B1 [b]) bs) = true) as ->.
  { clear. by induction bs. }
  assert (mapM as_b1 (map (fun b => B1 [b]) bs) = Some (map (fun b => [b]) bs)) as ->.
  { clear. induction bs as [|b bs IH]; [done|]. cbn. cbn in IH. by rewrite IH. }
  assert (reduce_all_axis0 (map (fun b => [b]) bs) = Ok [all_true bs]) as ->; [|done].
  induction bs as [|b [|b' bs] IH]; [done| |].
  - cbn. by rewrite andb_true_r.
  - change (reduce_all_axis0 (map (fun b => [b]) (b :: b' :: bs)))
      with (rest ← reduce_all_axis0 (map (fun b => [b]) (b' :: bs));
            if (length [b] =? length rest)%nat then Ok (zip_with andb [b] rest)
            else Raise ValueError).
    by rewrite IH.
Qed.

(** Membership in a space is the closed-box test, through every layer: a
    space built over repetition-free names from flat bounds stores one
    sub-limit per name; [inside] on one event picks the coordinate of each
    name, asks the sub-limit, and joins the answers; the result is true
    exactly when every coordinate lies between its two bounds, both ends
    included. *)
Theorem space_inside_is_the_box_test (names : list string) (lo up x : list Q)
    (name : option string) :
  NoDup names -> names <> [] ->
  length lo = length names -> length up = length names -> length x = length names ->
  exists s b,
    Sp.new (Coords.ObsSeq names) (Sp.LimArg (Lim.LPair (T1 lo) (T1 up))) None Sp.no_rect name
      = Ok s /\
    Sp.inside s (T2 [x]) false = Ok (B1 [b]) /\
    (b = true <-> in_closed_box x lo up).
Proof.
  intros Hnd Hne Hlo Hup Hx.
  exists (box_space names lo up name), (all_true (coordinate_tests x lo up)).
  split; [by apply new_box_space|]. split; [|apply coordinate_tests_spec; congruence].
  pose proof (box_space_has_rect_limits names lo up name Hne Hlo Hup) as Hrect.
  set (s := box_space names lo up name) in *.
  assert (Sp.obs s = Some names) as Hobs by reflexivity.
  assert (Sp.n_obs s = length names) as Hn by reflexivity.
  assert (getitem_obs (Sp._limits_dict s) = Ok (singleton_entries names lo up)) as Hd
    by reflexivity.
  unfold Sp.inside. rewrite Hn.
  assert (_sanitize_x_input (T2 [x]) (Some (length names)) = Ok (T2 [x])) as ->.
  { unfold _sanitize_x_input. cbn. rewrite Hx. by rewrite bool_decide_eq_true_2. }
  cbn [mbind result_bind]. rewrite Hrect.
  cbn [mbind result_bind andb]. unfold Sp._inside. rewrite Hobs, Hd.
  cbn [mbind result_bind].
  pose proof (inside_singleton_entries s [] names [] x lo up) as H.
  cbn [app] in H. rewrite H by done.
  cbn [mbind result_bind]. apply reduce_all_of_single_events.
  unfold coordinate_tests. destruct x, lo, up, names; done.
Qed.

(** The unit square over ('x','y') and its corner (1, 1). *)
Lemma space_inside_is_the_box_test_witness :
  exists s b,
    Sp.new (Coords.ObsSeq ["x"; "y"]%string) (Sp.LimArg (Lim.LPair (T1 [0; 0]) (T1 [1; 1])))
           None Sp.no_rect None = Ok s /\
    Sp.inside s (T2 [[1; 1]]) false = Ok (B1 [b]) /\
    (b = true <-> in_closed_box [1; 1] [0; 0] [1; 1]).
Proof.
  apply (space_inside_is_the_box_test ["x"; "y"]%string [0; 0] [1; 1] [1; 1] None); try done.
  by apply (bool_decide_unpack _).
Defined.
End space_inside.

Section subspace.
Import Backend Rect Dict.

Variable sub_obs : entry -> list string -> result (key string * entry).
Variable sub_axes : entry -> list Z -> result (key Z * entry).

Lemma requested_singleton (sel : list string) (o : string) (e : entry) :
  requested sel (KTuple [o], e) <-> o ∈ sel.
Proof.
  unfold requested. simpl. rewrite list_elem_of_fmap. split.
  - by intros (o' & [= ->] & Ho').
  - intros Ho. by exists o.
Qed.

Lemma insert_by_len_same {B} (n : nat) (x : B) (l : list (nat * B)) :
  Forall (fun p => p.1 = n) l -> Sp.insert_by_len (n, x) l = (n, x) :: l.
Proof.
  destruct l as [|[m y] l]; [done|]. intros [Hm _]%Forall_cons. simpl in *. subst m.
  by rewrite Nat.ltb_irrefl.
Qed.

Lemma sorted_same_length {B} (n : nat) (l : list B) :
  Sp.sorted_longest_first (map (fun x => (n, x)) l) = l.
Proof.
  unfold Sp.sorted_longest_first.
  assert (foldr Sp.insert_by_len [] (map (fun x => (n, x)) l) = map (fun x => (n, x)) l) as ->.
  { induction l as [|x l IH]; [done|]. simpl. rewrite IH. apply insert_by_len_same.
    apply Forall_forall. by intros p (y & -> & _)%list_elem_of_fmap. }
  induction l as [|x l IH]; [done|]. simpl. f_equal. exact IH.
Qed.

Lemma keyed_singleton_entries (names : list string) (lo up : list Q) :
  traverse (fun kv : key string * entry => cs ← Sp.elems_obs kv.1; Ok (length cs, kv))
           (singleton_entries names lo up)
  = Ok (map (fun kv => (1%nat, kv)) (singleton_entries names lo up)).
Proof.
  unfold singleton_entries. revert lo up.
  induction names as [|o names IH]; intros lo up; [done|].
  destruct lo as [|l lo]; [done|]. destruct up as [|u up]; [done|].
  cbn [zip_with traverse map]. rewrite IH. reflexivity.
Qed.

Lemma extract_loop_singletons (sel names : list string) (lo up : list Q)
    (acc : list (key string * entry)) :
  NoDup names -> (forall o, o ∈ names -> KTuple [o] ∉ acc.*1) ->
  Sp.extract_loop Sp.elems_obs sub_obs (singleton_entries names lo up) sel acc
  = Ok (acc ++ filter (requested sel) (singleton_entries names lo up)).
Proof.
  unfold singleton_entries. revert lo up acc.
  induction names as [|o names IH]; intros lo up acc Hnd Hfresh.
  { simpl. by rewrite app_nil_r. }
  destruct lo as [|l lo]; [simpl; by rewrite app_nil_r|].
  destruct up as [|u up]; [simpl; by rewrite app_nil_r|].
  apply NoDup_cons in Hnd as [Ho Hnd].
  cbn [zip_with Sp.extract_loop Sp.elems_obs mbind result_bind].
  destruct (decide (o ∈ sel)) as [Hin|Hout].
  - rewrite (filter_cons_True _ o []) by done. rewrite filter_nil.
    cbn [forallb]. rewrite (proj2 (is_in_true o sel) Hin). cbn [andb].
    rewrite setitem_fresh by (apply Hfresh; by left).
    rewrite IH; [| done |].
    + rewrite filter_cons_True by (by apply requested_singleton). by rewrite <- app_assoc.
    + intros o' Ho'. rewrite fmap_app. apply not_elem_of_app. split.
      * apply Hfresh. by right.
      * simpl. intros [= ->]%list_elem_of_singleton. done.
  - rewrite (filter_cons_False _ o []) by done. rewrite filter_nil.
    rewrite IH; [| done |].
    + by rewrite filter_cons_False by (by rewrite requested_singleton).
    + intros o' Ho'. apply Hfresh. by right.
Qed.

Lemma with_obs_subset (names sel : list string) :
  (forall o, o ∈ sel -> o ∈ names) ->
  Coords.with_obs (Coords.mkCoordinates (Some names) None (length names)) (Some sel) false true
  = Ok (Coords.mkCoordinates (Some sel) None (length sel)).
Proof.
  intros Hsub.
  destruct (with_obs_result (Coords.mkCoordinates (Some names) None (length names))
              names sel false true) as (new_axes & Hwith & Hax); try done.
  - unfold frozenset_eq, issuperset.
    rewrite (proj2 (issubset_spec sel names) Hsub). cbn [andb].
    by destruct (issubset names sel).
  - by rewrite andb_false_r.
  - cbn in Hax. subst new_axes. rewrite Hwith. by rewrite filter_all.
Qed.

(** [get_subspace] loses the use of the limits.  On a space over
    repetition-free names with one sub-limit per name, asking for some of
    the names succeeds and returns a space over the names asked for, in the
    order asked for, that stores exactly the selected sub-limits; but they
    are stored as the plain dictionary from keys to limits, without the
    'obs' level that every reader expects.  So the subspace has no
    rectangular limits, no limits at all, its [rect_limits] is [False], and
    [inside] never returns: on an event of the right length it raises
    KeyError.  This holds whatever the interface of the stored limits
    does. *)
Theorem get_subspace_loses_the_limits (names sel : list string) (lo up : list Q)
    (name nm : option string) :
  NoDup names -> sel <> [] -> (forall o, o ∈ sel -> o ∈ names) ->
  exists s',
    Sp.get_subspace sub_obs sub_axes (box_space names lo up name) (Some sel) None nm = Ok s' /\
    Sp.obs s' = Some sel /\
    Sp._limits_dict s' = ObsInner (filter (requested sel) (singleton_entries names lo up)) /\
    Sp.has_rect_limits s' = Ok false /\
    Sp.has_limits s' = Ok false /\
    Sp.rect_limits s' = Ok None /\
    (forall x g, exists e, Sp.inside s' x g = Raise e) /\
    (forall row g, length row = length sel -> Sp.inside s' (T2 [row]) g = Raise KeyError).
Proof.
  intros Hnd Hne Hsub.
  set (d := filter (requested sel) (singleton_entries names lo up)).
  set (c' := Coords.mkCoordinates (Some sel) None (length sel)).
  exists (Sp.mkSpace "Space"%string c' (ObsInner d)).
  assert (forall x g, Sp.inside (Sp.mkSpace "Space"%string c' (ObsInner d)) x g
                      = (x' ← _sanitize_x_input x (Some (length sel)); Raise KeyError)) as Hins.
  { intros x g. unfold Sp.inside. cbn [Sp.n_obs Sp.coords c' Coords._n_obs].
    destruct (_sanitize_x_input x (Some (length sel))) as [x'|e]; reflexivity. }
  split; [|split; [done|split; [done|split; [done|split; [|split; [done|split]]]]]].
  - unfold Sp.get_subspace, box_space.
    cbn [Sp._limits_dict getitem_obs mbind result_bind Sp.coords].
    unfold Sp._extract_limits. rewrite keyed_singleton_entries. cbn [mbind result_bind].
    rewrite sorted_same_length.
    rewrite extract_loop_singletons; [|done|intros o _; by intros ?%elem_of_nil].
    cbn [app mbind result_bind]. rewrite with_obs_subset by done.
    cbn [mbind result_bind]. unfold Sp.new. rewrite new_from_coords. reflexivity.
  - unfold Sp.has_limits. by destruct (negb _).
  - intros x g. rewrite Hins.
    destruct (_sanitize_x_input x (Some (length sel))) as [x'|e]; by eexists.
  - intros row g Hrow. rewrite Hins.
    unfold _sanitize_x_input. cbn. rewrite Hrow. by rewrite bool_decide_eq_true_2.
Qed.
End subspace.

(** The names ('z','x') out of a space over ('x','y','z'), with stored
    limits that offer no sub-limits. *)
Lemma get_subspace_loses_the_limits_witness :
  let sub_obs := fun (_ : Dict.entry) (_ : list string) =>
                   Raise AttributeError : result (Dict.key string * Dict.entry) in
  let sub_axes := fun (_ : Dict.entry) (_ : list Z) =>
                    Raise AttributeError : result (Dict.key Z * Dict.entry) in
  let names := ["x"; "y"; "z"]%string in
  let sel := ["z"; "x"]%string in
  let lo := [0%Q; 1%Q; 2%Q] in
  let up := [3%Q; 4%Q; 5%Q] in
  exists s',
    Sp.get_subspace sub_obs sub_axes (box_space names lo up None) (Some sel) None None = Ok s' /\
    Sp.obs s' = Some sel /\
    Sp._limits_dict s'
      = Dict.ObsInner (filter (requested sel) (singleton_entries names lo up)) /\
    Sp.has_rect_limits s' = Ok false /\
    Sp.has_limits s' = Ok false /\
    Sp.rect_limits s' = Ok None /\
    (forall x g, exists e, Sp.inside s' x g = Raise e) /\
    (forall row g, length row = length sel ->
                   Sp.inside s' (Backend.T2 [row]) g = Raise KeyError).
Proof.
  intros sub_obs sub_axes names sel lo up.
  apply (get_subspace_loses_the_limits sub_obs sub_axes names sel lo up None None).
  - by apply (bool_decide_unpack _).
  - done.
  - intros o Ho. apply (bool_decide_unpack _).
    apply elem_of_cons in Ho as [->|Ho]; [done|].
    apply elem_of_cons in Ho as [->|Ho]; [done|].
    by apply elem_of_nil in Ho.
Defined.

Section replace_limits.
Import Backend Dict.

Lemma new_over_coordinates (names : list string) (l : Sp.limits_arg) (r : Sp.rect_limits_arg)
    (nm : option string) :
  Sp.new (Coords.ObsCoords (Coords.mkCoordinates (Some names) None (length names))) l None r nm
  = Sp.new (Coords.ObsSeq names) l None r nm.
Proof. unfold Sp.new. rewrite new_from_coords, new_seq; done. Qed.

(** [with_limits] keeps the coordinates and nothing else.  On a space over
    repetition-free names, new flat bounds of the right length give the
    space that the constructor builds from the names and these bounds, and
    its name is the constructor's default 'Space': the limits the space had,
    the name it had and the [name] argument play no role. *)
Theorem with_limits_keeps_only_the_coordinates (s : Sp.Space) (names : list string)
    (lo up : list Q) (name : option string) :
  Sp.coords s = Coords.mkCoordinates (Some names) None (length names) ->
  NoDup names -> names <> [] -> length lo = length names -> length up = length names ->
  Sp.with_limits s (Sp.LimArg (Lim.LPair (T1 lo) (T1 up))) Sp.no_rect name
  = Ok (box_space names lo up (Some "Space"%string)) /\
  Sp.new (Coords.ObsSeq names) (Sp.LimArg (Lim.LPair (T1 lo) (T1 up))) None Sp.no_rect
         (Some "Space"%string)
  = Ok (box_space names lo up (Some "Space"%string)).
Proof.
  intros Hc Hnd Hne Hlo Hup.
  pose proof (new_box_space names lo up (Some "Space"%string) Hnd Hne Hlo Hup) as Hnew.
  split; [|exact Hnew].
  unfold Sp.with_limits. rewrite Hc, new_over_coordinates. exact Hnew.
Qed.

(** A space named 'old' without limits over ('x','y') is given the unit
    square and the name 'new'. *)
Lemma with_limits_keeps_only_the_coordinates_witness :
  let s := Sp.mkSpace "old"%string (Coords.mkCoordinates (Some ["x"; "y"]%string) None 2)
                      (Outer true None None) in
  Sp.with_limits s (Sp.LimArg (Lim.LPair (T1 [0%Q; 0%Q]) (T1 [1%Q; 1%Q]))) Sp.no_rect
                 (Some "new"%string)
  = Ok (box_space ["x"; "y"]%string [0%Q; 0%Q] [1%Q; 1%Q] (Some "Space"%string)) /\
  Sp.new (Coords.ObsSeq ["x"; "y"]%string) (Sp.LimArg (Lim.LPair (T1 [0%Q; 0%Q]) (T1 [1%Q; 1%Q])))
         None Sp.no_rect (Some "Space"%string)
  = Ok (box_space ["x"; "y"]%string [0%Q; 0%Q] [1%Q; 1%Q] (Some "Space"%string)).
Proof.
  intros s.
  apply (with_limits_keeps_only_the_coordinates s ["x"; "y"]%string); try done.
  by apply (bool_decide_unpack _).
Defined.
End replace_limits.
